(** * opencollective-api: activity sanitizer, Account resolvers, LegalDocument

    A shallow embedding of
      - [sanitizeActivity], the projection of an activity for outbound
        webhooks, with the part of lodash it runs on ([pick] and the path
        functions under it),
      - the [transactions], [orders] and [updatedAt] resolvers of
        server/graphql/v2/interface/Account.js, over a relational store
        that answers the ORM's [findOne] and [findAndCountAll],
      - the creation contract of the LegalDocument model,
    together with the properties stated about them.

    JavaScript values are a small inductive type; objects are finite maps
    from property names to values ([gmap string value]), rows of the store
    are such objects.  Values are those of JSON plus [undefined] and dates:
    no functions, no symbols, no prototypes of their own.  A resolver is a
    function of the store that returns its outcome, a value or a thrown
    error, together with the log of the queries it has issued.  The string
    primitive [toLowerCase] of the language is a parameter of the orders
    resolver. *)

From Stdlib Require Import ZArith Ascii String.
From stdpp Require Import gmap strings list fin_maps.

Set Warnings "-register-all,-clear-no-such-hyp".
#[local] Open Scope string_scope.
#[local] Open Scope Z_scope.
#[local] Open Scope list_scope.

(** ** JavaScript values *)

Inductive value :=
  | VUndefined
  | VNull
  | VBool (b : bool)
  | VNum (n : Z)
  | VStr (s : string)
  | VDate (t : Z)                       (* a Date object, as epoch milliseconds *)
  | VArr (xs : list value)
  | VObj (m : gmap string value).

(** [v == null] *)
Definition nullish (v : value) : bool :=
  match v with
  | VUndefined | VNull => true
  | _ => false
  end.

(** ToBoolean: the values JavaScript treats as false are [undefined], [null],
    [false], [0] and the empty string; every object (Date, array, plain
    object) is true. *)
Definition truthy (v : value) : bool :=
  match v with
  | VUndefined | VNull => false
  | VBool b => b
  | VNum n => negb (n =? 0)
  | VStr s => negb (bool_decide (s = ""))
  | VDate _ | VArr _ | VObj _ => true
  end.

(** [a || b] *)
Definition js_or (a b : value) : value := if truthy a then a else b.

(** [k in Object(v)] for a plain object [v].  Only plain objects carry the
    property names this development asks about: none of them is an array
    index, [length], or a member of a built-in prototype. *)
Definition has_key (v : value) (k : string) : bool :=
  match v with
  | VObj m => bool_decide (is_Some (m !! k))
  | _ => false
  end.

(** [v[k]] for a non-nullish [v]. *)
Definition prop (v : value) (k : string) : value :=
  match v with
  | VObj m => default VUndefined (m !! k)
  | _ => VUndefined
  end.

(** [v === s] for a string [s]. *)
Definition strict_eq_str (v : value) (s : string) : bool :=
  match v with
  | VStr t => bool_decide (t = s)
  | _ => false
  end.

(** ** Strings *)

(** [String.prototype.toLowerCase] is a primitive of the language, not code
    of the repository: it lower-cases every cased letter of Unicode.  The
    resolvers are embedded over whatever function the runtime provides for
    it, and what is proved of them holds for every such function. *)
Class StringPrototype := {
  toLowerCase : string → string
}.

(** On strings of ASCII characters [toLowerCase] is this function; the
    sample runs, whose slugs are ASCII, are evaluated with it. *)
Definition lower_ascii (c : ascii) : ascii :=
  let n := N_of_ascii c in
  if ((65 <=? n) && (n <=? 90))%N then ascii_of_N (n + 32) else c.

Fixpoint ascii_toLowerCase (s : string) : string :=
  match s with
  | EmptyString => EmptyString
  | String c s' => String (lower_ascii c) (ascii_toLowerCase s')
  end.

Definition ascii_strings : StringPrototype :=
  {| toLowerCase := ascii_toLowerCase |}.

(** ** lodash: paths, [get], [hasIn], [set], [pick] *)

Module Lodash.

Definition is_dot (c : ascii) : bool := bool_decide (c = "."%char).

Fixpoint has_dot (s : string) : bool :=
  match s with
  | EmptyString => false
  | String c s' => is_dot c || has_dot s'
  end.

(** [stringToPath], on property paths written with dots only (no brackets,
    no quotes): the segments between the dots.  It never yields the empty
    path. *)
Fixpoint stringToPath (s : string) : list string :=
  match s with
  | EmptyString => [EmptyString]
  | String c s' =>
      if is_dot c then EmptyString :: stringToPath s'
      else match stringToPath s' with
           | seg :: segs => String c seg :: segs
           | [] => [String c EmptyString]
           end
  end.

Fixpoint join_dot (p : list string) : string :=
  match p with
  | [] => EmptyString
  | [seg] => seg
  | seg :: p' => seg +:+ String "."%char (join_dot p')
  end.

(** [isKey(value, object)]: a string is a property name rather than a path
    when it has no path syntax or when the object has a property of exactly
    that name. *)
Definition isKey (s : string) (object : value) : bool :=
  negb (has_dot s) || (negb (nullish object) && has_key object s).

Definition castPath (s : string) (object : value) : list string :=
  if isKey s object then [s] else stringToPath s.

(** the loop of [baseGet] *)
Fixpoint walk (object : value) (path : list string) : value :=
  match path with
  | [] => object
  | key :: path' =>
      if nullish object then VUndefined else walk (prop object key) path'
  end.

Definition baseGet (object : value) (s : string) : value :=
  walk object (castPath s object).

(** the loop of [hasPath] with [baseHasIn], entered with a path that is not
    empty; its fallback for array indices never applies to a key that is
    not an index. *)
Fixpoint hasPath (object : value) (path : list string) : bool :=
  match path with
  | [] => true
  | key :: path' =>
      negb (nullish object) && has_key object key
      && hasPath (prop object key) path'
  end.

Definition hasIn (object : value) (s : string) : bool :=
  negb (nullish object) && hasPath object (castPath s object).

Definition unsafe_key (key : string) : bool :=
  bool_decide (key = "__proto__") || bool_decide (key = "constructor")
  || bool_decide (key = "prototype").

(** [baseSet(result, path, value)]: missing intermediate objects are created
    on the way down. *)
Fixpoint baseSet (object : gmap string value) (path : list string)
    (v : value) : gmap string value :=
  match path with
  | [] => object
  | [key] => if unsafe_key key then object else <[key := v]> object
  | key :: path' =>
      if unsafe_key key then object
      else
        let nested :=
          match object !! key with
          | Some (VObj m) => m
          | _ => ∅
          end in
        <[key := VObj (baseSet nested path' v)]> object
  end.

(** one turn of the loop of [basePickBy], with the predicate of [basePick] *)
Definition pick_step (object : value) (result : gmap string value)
    (path : string) : gmap string value :=
  if hasIn object path
  then baseSet result (castPath path object) (baseGet object path)
  else result.

Definition basePick (object : value) (paths : list string)
    : gmap string value :=
  foldl (pick_step object) ∅ paths.

Definition pick (object : value) (paths : list string)
    : gmap string value :=
  if nullish object then ∅ else basePick object paths.

End Lodash.

(** ** The activity sanitizer *)

Module Activities.
(** Modelled from the spec: the [activities] table of the constants module is
    not part of the sources at hand; the three activity types the sanitizer
    knows are named there by these strings. *)
Definition COLLECTIVE_TRANSACTION_CREATED := "collective.transaction.created".
Definition COLLECTIVE_UPDATE_PUBLISHED := "collective.update.published".
Definition COLLECTIVE_EXPENSE_CREATED := "collective.expense.created".
End Activities.

Definition sanitizeActivity (activity : gmap string value)
    : gmap string value :=
  (* Fields commons to all activity types *)
  let cleanActivity :=
    Lodash.pick (VObj activity) ["createdAt"; "id"; "type"; "CollectiveId"] in
  let type := prop (VObj cleanActivity) "type" in
  (* Alway have an empty data object for activity *)
  let cleanActivity := <["data" := VObj ∅]> cleanActivity in
  (* Filter data based on activity type *)
  if strict_eq_str type Activities.COLLECTIVE_TRANSACTION_CREATED then
    <["data" := VObj (Lodash.pick (prop (VObj activity) "data")
        [ "fromCollective.type";
          "fromCollective.name";
          "fromCollective.image";
          "fromCollective.slug";
          "transaction.amount";
          "transaction.currency" ])]> cleanActivity
  else if strict_eq_str type Activities.COLLECTIVE_UPDATE_PUBLISHED then
    <["data" := VObj (Lodash.pick (prop (VObj activity) "data")
        [ "update.html";
          "update.title";
          "update.slug";
          "update.tags";
          "update.isPrivate" ])]> cleanActivity
  else if strict_eq_str type Activities.COLLECTIVE_EXPENSE_CREATED then
    <["data" := VObj (Lodash.pick (prop (VObj activity) "data")
        [ "fromCollective.type";
          "fromCollective.name";
          "fromCollective.image";
          "fromCollective.slug";
          "expense.id";
          "expense.description";
          "expense.amount";
          "expense.currency" ])]> cleanActivity
  else cleanActivity.

(** The per-type lists of data fields, as a table. *)
Definition allowlist (type : string) : list string :=
  if bool_decide (type = Activities.COLLECTIVE_TRANSACTION_CREATED) then
    [ "fromCollective.type"; "fromCollective.name"; "fromCollective.image";
      "fromCollective.slug"; "transaction.amount"; "transaction.currency" ]
  else if bool_decide (type = Activities.COLLECTIVE_UPDATE_PUBLISHED) then
    [ "update.html"; "update.title"; "update.slug"; "update.tags";
      "update.isPrivate" ]
  else if bool_decide (type = Activities.COLLECTIVE_EXPENSE_CREATED) then
    [ "fromCollective.type"; "fromCollective.name"; "fromCollective.image";
      "fromCollective.slug"; "expense.id"; "expense.description";
      "expense.amount"; "expense.currency" ]
  else [].

Definition known_type (type : string) : Prop :=
  type = Activities.COLLECTIVE_TRANSACTION_CREATED
  ∨ type = Activities.COLLECTIVE_UPDATE_PUBLISHED
  ∨ type = Activities.COLLECTIVE_EXPENSE_CREATED.

(** [output] holds exactly the fields of [allowed] that [input] has: every
    allowed field is in the output if and only if it is in the input, with
    the input's value; and every property of the output is either an allowed
    field that the input has under that very name, or a group [k] whose
    members [b] are the allowed fields [k.b] of the input. *)
Definition picked_exactly (allowed : list string) (input : value)
    (output : gmap string value) : Prop :=
  (∀ p, p ∈ allowed →
     Lodash.hasIn (VObj output) p = Lodash.hasIn input p
     ∧ Lodash.baseGet (VObj output) p = Lodash.baseGet input p)
  ∧ (∀ k v, output !! k = Some v →
       (k ∈ allowed ∧ Lodash.hasIn input k = true ∧ v = Lodash.baseGet input k)
       ∨ (∃ m, v = VObj m ∧ m ≠ ∅
            ∧ ∀ b w, m !! b = Some w →
                let p := k +:+ String "."%char b in
                p ∈ allowed ∧ Lodash.hasIn input p = true
                ∧ w = Lodash.baseGet input p)).

(** ** The relational store behind the ORM *)

(** A row is the object the ORM hands out for it: column name to value. *)
Definition sql_eq (a b : value) : bool :=
  match a, b with
  | VNum x, VNum y => x =? y
  | VStr x, VStr y => bool_decide (x = y)
  | VBool x, VBool y => bool_decide (x = y)
  | VDate x, VDate y => x =? y
  | _, _ => false
  end.

Inductive wcond :=
  | Is (v : value)                         (* col: v *)
  | OpIn (vs : list value).                (* col: { [Op.in]: vs } *)

Inductive wentry :=
  | Col (name : string) (c : wcond)
  | OpOr (alts : list (string * value)).   (* [Op.or]: { col: v, ... } *)

Definition cond_holds (v : value) (c : wcond) : bool :=
  match c with
  | Is w => sql_eq v w
  | OpIn ws => existsb (sql_eq v) ws
  end.

Definition entry_holds (row : gmap string value) (e : wentry) : bool :=
  match e with
  | Col name c => cond_holds (prop (VObj row) name) c
  | OpOr alts =>
      existsb (fun '(name, v) => sql_eq (prop (VObj row) name) v) alts
  end.

(** The entries of a where object hold together. *)
Definition matches (where_ : list wentry) (row : gmap string value) : bool :=
  forallb (entry_holds row) where_.

Inductive direction := ASC | DESC.

Record ChronologicalOrder := {
  field : string;
  direction_ : direction
}.

Record FindOptions := {
  fo_where : list wentry;
  fo_limit : option Z;
  fo_offset : option Z;
  fo_order : string * direction
}.

Record DB := {
  Tiers : list (gmap string value);
  Orders : list (gmap string value);
  Transactions : list (gmap string value);
  Collectives : list (gmap string value);
  LegalDocuments : list (gmap string value)
}.

Inductive error :=
  | NotFound (message : string)
  | ValidationError
  | TypeError
  | DatabaseError.

Inductive outcome (A : Type) :=
  | Ok (a : A)
  | Throw (e : error).
Arguments Ok {A} a.
Arguments Throw {A} e.

Inductive query :=
  | TierFindOne (where_ : list wentry)
  | OrderFindAndCountAll (options : FindOptions)
  | TransactionFindAndCountAll (options : FindOptions).

(** A resolver reads the store and leaves a log of the queries it issued. *)
Definition M (A : Type) : Type := DB → list query → outcome A * list query.

Definition ret {A} (a : A) : M A := fun _ log => (Ok a, log).

Definition throw {A} (e : error) : M A := fun _ log => (Throw e, log).

Definition bind {A B} (m : M A) (k : A → M B) : M B :=
  fun db log =>
    match m db log with
    | (Ok a, log') => k a db log'
    | (Throw e, log') => (Throw e, log')
    end.

#[export] Instance M_ret : MRet M := @ret.
#[export] Instance M_bind : MBind M := fun A B k m => bind m k.

Definition run {A} (m : M A) (db : DB) : outcome A * list query := m db [].

Definition sort_key (column : string) (row : gmap string value) : Z :=
  match prop (VObj row) column with
  | VNum n | VDate n => n
  | _ => 0
  end.

Definition comes_first (d : direction) (a b : Z) : bool :=
  match d with
  | ASC => a <=? b
  | DESC => b <=? a
  end.

Fixpoint insert_row (column : string) (d : direction)
    (row : gmap string value) (rows : list (gmap string value))
    : list (gmap string value) :=
  match rows with
  | [] => [row]
  | r :: rows' =>
      if comes_first d (sort_key column row) (sort_key column r)
      then row :: rows
      else r :: insert_row column d row rows'
  end.

Definition order_rows (order : string * direction)
    (rows : list (gmap string value)) : list (gmap string value) :=
  foldr (insert_row order.1 order.2) [] rows.

(** LIMIT and OFFSET; the database refuses negative ones. *)
Definition window {A} (limit offset : option Z) (rows : list A)
    : option (list A) :=
  if bool_decide (0 ≤ default 0 limit ∧ 0 ≤ default 0 offset) then
    let rest := drop (Z.to_nat (default 0 offset)) rows in
    Some (match limit with
          | Some n => take (Z.to_nat n) rest
          | None => rest
          end)
  else None.

(** [Model.findAndCountAll(options)] on a table: the number of rows that
    match, and the requested window of them in the requested order, as the
    object [{count, rows}]. *)
Definition findAndCountAll (table : list (gmap string value))
    (options : FindOptions) : outcome (gmap string value) :=
  let found := filter (fun row => matches (fo_where options) row = true) table in
  match window (fo_limit options) (fo_offset options)
               (order_rows (fo_order options) found) with
  | Some rows =>
      Ok (<["count" := VNum (Z.of_nat (length found))]>
            (<["rows" := VArr (VObj <$> rows)]> ∅))
  | None => Throw DatabaseError
  end.

(** [Model.findOne({ where })]: a matching row, or [null]. *)
Definition findOne (table : list (gmap string value))
    (where_ : list wentry) : option (gmap string value) :=
  List.find (matches where_) table.

Module models.

Definition Tier_findOne (where_ : list wentry)
    : M (option (gmap string value)) :=
  fun db log => (Ok (findOne (Tiers db) where_), log ++ [TierFindOne where_]).

Definition Order_findAndCountAll (options : FindOptions)
    : M (gmap string value) :=
  fun db log =>
    (findAndCountAll (Orders db) options, log ++ [OrderFindAndCountAll options]).

Definition Transaction_findAndCountAll (options : FindOptions)
    : M (gmap string value) :=
  fun db log =>
    (findAndCountAll (Transactions db) options,
     log ++ [TransactionFindAndCountAll options]).

(** Modelled from the spec: the LegalDocument model is not part of the
    sources at hand (only its test is).  An id references an existing
    collective row. *)
Definition references_collective (db : DB) (id : value) : bool :=
  existsb (fun row => sql_eq (prop (VObj row) "id") id) (Collectives db).

(** Modelled from the spec: creating a legal document requires
    [HostCollectiveId] and [CollectiveId] to reference existing collective
    rows; creation fails with a validation error if that is violated,
    otherwise it succeeds and the record becomes queryable. *)
Definition LegalDocument_create (legalDoc : gmap string value) (db : DB)
    : outcome (gmap string value) * DB :=
  if references_collective db (prop (VObj legalDoc) "HostCollectiveId")
     && references_collective db (prop (VObj legalDoc) "CollectiveId")
  then (Ok legalDoc,
        {| Tiers := Tiers db; Orders := Orders db;
           Transactions := Transactions db; Collectives := Collectives db;
           LegalDocuments := LegalDocuments db ++ [legalDoc] |})
  else (Throw ValidationError, db).

(** Modelled from the spec: the query that finds the records created. *)
Definition LegalDocument_findAll (where_ : list wentry) (db : DB)
    : list (gmap string value) :=
  filter (fun row => matches where_ row = true) (LegalDocuments db).

End models.

(** ** The Account interface: resolvers *)

(** A nullable GraphQL argument as the value the resolver's result carries. *)
Definition int_value (n : option Z) : value :=
  match n with
  | Some z => VNum z
  | None => VNull
  end.

(** ToBoolean of a nullable Boolean and of a nullable String argument. *)
Definition is_true (b : option bool) : bool := default false b.

Definition non_empty (s : option string) : bool :=
  match s with
  | Some t => negb (bool_decide (t = ""))
  | None => false
  end.

(** [{ limit: ..., offset: ..., ...result }]: the properties of [result]
    are written last. *)
Definition page (limit offset : option Z) (result : gmap string value)
    : gmap string value :=
  result ∪ <["limit" := int_value limit]> (<["offset" := int_value offset]> ∅).

(** [[[args.orderBy.field, args.orderBy.direction]]]; reading a property of
    [null] throws. *)
Definition order_of (orderBy : option ChronologicalOrder)
    : M (string * direction) :=
  match orderBy with
  | Some o => ret (field o, direction_ o)
  | None => throw TypeError
  end.

Record TransactionsArgs := {
  tx_type : option string;
  tx_limit : option Z;
  tx_offset : option Z;
  tx_orderBy : option ChronologicalOrder
}.

Definition accountTransactions_resolve (collective : gmap string value)
    (args : TransactionsArgs) : M (gmap string value) :=
  let where_ := [Col "CollectiveId" (Is (prop (VObj collective) "id"))] in
  let where_ :=
    if non_empty (tx_type args)
    then where_ ++ [Col "type" (Is (VStr (default "" (tx_type args))))]
    else where_ in
  order ← order_of (tx_orderBy args);
  result ← models.Transaction_findAndCountAll
             {| fo_where := where_;
                fo_limit := tx_limit args;
                fo_offset := tx_offset args;
                fo_order := order |};
  ret (page (tx_limit args) (tx_offset args) result).

Record OrdersArgs := {
  sent : option bool;
  received : option bool;
  limit : option Z;
  offset : option Z;
  status : option (list string);
  tierSlug : option string;
  orderBy : option ChronologicalOrder
}.

Definition accountOrders_resolve {rt : StringPrototype} (collective : gmap string value)
    (args : OrdersArgs) : M (gmap string value) :=
  let id := prop (VObj collective) "id" in
  where_ ←
    (if is_true (sent args) && is_true (received args) then
       ret [OpOr [("CollectiveId", id); ("FromCollectiveId", id)]]
     else if is_true (sent args) then
       ret [Col "FromCollectiveId" (Is id)]
     else if is_true (received args) then
       ret [Col "CollectiveId" (Is id)]
     else
       throw (NotFound
                "At least one of `sent` or `received` needs to be true."));
  let where_ :=
    match status args with
    | Some (s :: ss) => where_ ++ [Col "status" (OpIn (VStr <$> s :: ss))]
    | _ => where_
    end in
  where_ ←
    (if non_empty (tierSlug args) then
       let tierSlug := toLowerCase (default "" (tierSlug args)) in
       tier ← models.Tier_findOne
                [Col "CollectiveId" (Is id); Col "slug" (Is (VStr tierSlug))];
       match tier with
       | None => throw (NotFound "TierSlug Not Found")
       | Some t => ret (where_ ++ [Col "TierId" (Is (prop (VObj t) "id"))])
       end
     else ret where_);
  order ← order_of (orderBy args);
  result ← models.Order_findAndCountAll
             {| fo_where := where_;
                fo_limit := limit args;
                fo_offset := offset args;
                fo_order := order |};
  ret (page (limit args) (offset args) result).

(** [AccountFields.updatedAt.resolve] *)
Definition updatedAt_resolve (collective : gmap string value) : value :=
  js_or (prop (VObj collective) "updatedAt") (prop (VObj collective) "createdAt").

(** ** Notions used in the statements *)

(** The page a resolver returns: [limit] and [offset] as asked for, next to
    the [count] and the [rows] of the store's answer. *)
Definition page_shape (limit offset : option Z) (p : gmap string value)
    : Prop :=
  dom p = {["limit"; "offset"; "count"; "rows"]}
  ∧ p !! "limit" = Some (int_value limit)
  ∧ p !! "offset" = Some (int_value offset)
  ∧ ∃ n rows, p !! "count" = Some (VNum n) ∧ p !! "rows" = Some (VArr rows).

(** The same with the property names [totalCount] and [items]. *)
Definition page_shape_totalCount_items (limit offset : option Z)
    (p : gmap string value) : Prop :=
  dom p = {["limit"; "offset"; "totalCount"; "items"]}
  ∧ p !! "limit" = Some (int_value limit)
  ∧ p !! "offset" = Some (int_value offset).

Definition set_tierSlug (args : OrdersArgs) (slug : option string)
    : OrdersArgs :=
  {| sent := sent args; received := received args; limit := limit args;
     offset := offset args; status := status args; tierSlug := slug;
     orderBy := orderBy args |}.

(** The where object of the tier lookup for a slug. *)
Definition tier_where {rt : StringPrototype} (collective : gmap string value) (slug : string)
    : list wentry :=
  [Col "CollectiveId" (Is (prop (VObj collective) "id"));
   Col "slug" (Is (VStr (toLowerCase slug)))].

(** The order query of a call, for a where object and an order. *)
Definition order_query (args : OrdersArgs) (o : ChronologicalOrder)
    (where_ : list wentry) : query :=
  OrderFindAndCountAll
    {| fo_where := where_; fo_limit := limit args; fo_offset := offset args;
       fo_order := (field o, direction_ o) |}.

(** The page made of an answer of the store: [limit] and [offset] as asked
    for, [count] and [rows] as the store gave them, and nothing else. *)
Definition store_page (limit offset : option Z)
    (result p : gmap string value) : Prop :=
  page_shape limit offset p
  ∧ p !! "count" = result !! "count"
  ∧ p !! "rows" = result !! "rows".

(** The page of a run, when there is one. *)
Definition page_of (r : outcome (gmap string value) * list query)
    : gmap string value :=
  match r.1 with
  | Ok p => p
  | Throw _ => ∅
  end.

(** ** Sample data *)

Definition obj (l : list (string * value)) : gmap string value :=
  list_to_map l.

Definition sample_db : DB := {|
  Tiers :=
    [ obj [("id", VNum 5); ("CollectiveId", VNum 1); ("slug", VStr "backer")];
      obj [("id", VNum 6); ("CollectiveId", VNum 2); ("slug", VStr "sponsor")] ];
  Orders :=
    [ obj [("id", VNum 10); ("CollectiveId", VNum 1);
           ("FromCollectiveId", VNum 2); ("TierId", VNum 5);
           ("status", VStr "ACTIVE"); ("createdAt", VDate 100)];
      obj [("id", VNum 11); ("CollectiveId", VNum 3);
           ("FromCollectiveId", VNum 1); ("status", VStr "PAID");
           ("createdAt", VDate 200)];
      obj [("id", VNum 12); ("CollectiveId", VNum 3);
           ("FromCollectiveId", VNum 2); ("status", VStr "PAID");
           ("createdAt", VDate 300)] ];
  Transactions :=
    [ obj [("id", VNum 20); ("CollectiveId", VNum 1); ("type", VStr "CREDIT");
           ("createdAt", VDate 150)];
      obj [("id", VNum 21); ("CollectiveId", VNum 2); ("type", VStr "DEBIT");
           ("createdAt", VDate 150)] ];
  Collectives :=
    [ obj [("id", VNum 1); ("slug", VStr "myhost")];
      obj [("id", VNum 2); ("slug", VStr "xdamman")] ];
  LegalDocuments := []
|}.

Definition sample_account : gmap string value :=
  obj [("id", VNum 1); ("slug", VStr "myhost"); ("createdAt", VDate 50);
       ("updatedAt", VNull)].

Definition newest_first : ChronologicalOrder :=
  {| field := "createdAt"; direction_ := DESC |}.

Definition sample_orders_args : OrdersArgs :=
  {| sent := Some true; received := Some true; limit := Some 100;
     offset := Some 0; status := None; tierSlug := None;
     orderBy := Some newest_first |}.

Definition sample_transactions_args : TransactionsArgs :=
  {| tx_type := Some "CREDIT"; tx_limit := Some 100; tx_offset := Some 0;
     tx_orderBy := Some newest_first |}.

Definition sample_orders_run :=
  run (accountOrders_resolve (rt := ascii_strings) sample_account
         sample_orders_args) sample_db.

Definition direction_run (s r : bool) :=
  run (accountOrders_resolve (rt := ascii_strings) sample_account
         {| sent := Some s; received := Some r; limit := Some 100;
            offset := Some 0; status := None; tierSlug := None;
            orderBy := Some newest_first |}) sample_db.

Definition sample_transactions_run :=
  run (accountTransactions_resolve sample_account sample_transactions_args)
      sample_db.

Definition empty_tierSlug_run :=
  run (accountOrders_resolve (rt := ascii_strings) sample_account
         (set_tierSlug sample_orders_args (Some ""))) sample_db.

Definition sample_legalDoc : gmap string value :=
  obj [("year", VStr "2019"); ("HostCollectiveId", VNum 1);
       ("CollectiveId", VNum 2)].

Definition sample_activity : gmap string value :=
  obj [ ("id", VNum 7); ("createdAt", VDate 1000);
        ("type", VStr "collective.transaction.created");
        ("CollectiveId", VNum 1); ("UserId", VNum 3);
        ("data", VObj (obj
           [ ("fromCollective", VObj (obj
                [("type", VStr "USER"); ("name", VStr "Xavier");
                 ("email", VStr "x@example.com")]));
             ("transaction", VObj (obj
                [("amount", VNum 500); ("currency", VStr "USD");
                 ("PaymentMethodId", VNum 9)]));
             ("user", VObj (obj [("email", VStr "x@example.com")])) ])) ].

Definition sample_unknown_activity : gmap string value :=
  obj [ ("id", VNum 8); ("type", VStr "user.created");
        ("data", VObj (obj [("user", VObj (obj [("email", VStr "e")]))])) ].

(** ** Auxiliary notions for the proofs about [pick] *)

Definition plain_key (s : string) : Prop :=
  Lodash.has_dot s = false ∧ Lodash.unsafe_key s = false.

(** a path of two segments, none of them refused by [baseSet] *)
Definition deep_path (p : string) : bool :=
  match Lodash.stringToPath p with
  | [a; b] =>
      negb (Lodash.unsafe_key a) && negb (Lodash.unsafe_key b)
      && negb (Lodash.unsafe_key p)
  | _ => false
  end.

Definition lookup2 (R : gmap string value) (a b : string) : option value :=
  match R !! a with
  | Some (VObj m) => m !! b
  | _ => None
  end.

(** What [pick] has stored under a name with a dot, and under [a] then [b],
    once the paths of [done] are processed. *)
Definition lit_entry (object : value) (done : gset string) (k : string)
    : option value :=
  if bool_decide (k ∈ done) && has_key object k
  then Some (prop object k) else None.

Definition deep_entry (object : value) (done : gset string) (a b : string)
    : option value :=
  let p := a +:+ String "."%char b in
  if bool_decide (p ∈ done) && negb (has_key object p)
     && Lodash.hasPath object [a; b]
  then Some (prop (prop object a) b) else None.

Record pick_inv (object : value) (R : gmap string value)
    (done : gset string) : Prop := {
  inv_literal : ∀ k, Lodash.has_dot k = true → R !! k = lit_entry object done k;
  inv_group : ∀ a, Lodash.has_dot a = false →
    R !! a = None ∨ ∃ m, R !! a = Some (VObj m) ∧ m ≠ ∅;
  inv_deep : ∀ a b, Lodash.has_dot a = false →
    lookup2 R a b = deep_entry object done a b
}.

Definition common_fields : list string :=
  ["createdAt"; "id"; "type"; "CollectiveId"].

(** ** Notions used in the further properties *)

(** The parts of the where object of an orders query. *)
Definition direction_filter (collective : gmap string value)
    (args : OrdersArgs) : wentry :=
  let id := prop (VObj collective) "id" in
  if is_true (sent args) && is_true (received args)
  then OpOr [("CollectiveId", id); ("FromCollectiveId", id)]
  else if is_true (sent args) then Col "FromCollectiveId" (Is id)
  else Col "CollectiveId" (Is id).

Definition status_filter (args : OrdersArgs) : list wentry :=
  match status args with
  | Some (s :: ss) => [Col "status" (OpIn (VStr <$> s :: ss))]
  | _ => []
  end.

Definition tier_filter {rt : StringPrototype} (db : DB) (collective : gmap string value)
    (args : OrdersArgs) : list wentry :=
  if non_empty (tierSlug args) then
    match findOne (Tiers db)
            (tier_where collective (default "" (tierSlug args))) with
    | Some t => [Col "TierId" (Is (prop (VObj t) "id"))]
    | None => []
    end
  else [].

Definition orders_where {rt : StringPrototype} (db : DB) (collective : gmap string value)
    (args : OrdersArgs) : list wentry :=
  direction_filter collective args
  :: status_filter args ++ tier_filter db collective args.

(** The tier of the slug is there, when a slug is given. *)
Definition tier_resolves {rt : StringPrototype} (db : DB) (collective : gmap string value)
    (args : OrdersArgs) : bool :=
  negb (non_empty (tierSlug args))
  || bool_decide (is_Some (findOne (Tiers db)
       (tier_where collective (default "" (tierSlug args))))).

Definition transactions_where (collective : gmap string value)
    (args : TransactionsArgs) : list wentry :=
  Col "CollectiveId" (Is (prop (VObj collective) "id"))
  :: (if non_empty (tx_type args)
      then [Col "type" (Is (VStr (default "" (tx_type args))))]
      else []).

Definition window_ok (limit offset : option Z) : bool :=
  bool_decide (0 ≤ default 0 limit ∧ 0 ≤ default 0 offset).

Definition set_direction (args : OrdersArgs) (s r : option bool)
    : OrdersArgs :=
  {| sent := s; received := r; limit := limit args; offset := offset args;
     status := status args; tierSlug := tierSlug args;
     orderBy := orderBy args |}.

(** The rows of a page. *)
Definition rows_of (p : gmap string value) : list value :=
  match p !! "rows" with
  | Some (VArr rows) => rows
  | _ => []
  end.

(** The run of the orders resolver, as a decision table: the direction
    check, the tier lookup, the order, the store. *)
Definition tier_log {rt : StringPrototype} (collective : gmap string value) (args : OrdersArgs)
    : list query :=
  if non_empty (tierSlug args)
  then [TierFindOne (tier_where collective (default "" (tierSlug args)))]
  else [].

Definition orders_options {rt : StringPrototype} (db : DB) (collective : gmap string value)
    (args : OrdersArgs) (o : ChronologicalOrder) : FindOptions :=
  {| fo_where := orders_where db collective args;
     fo_limit := limit args; fo_offset := offset args;
     fo_order := (field o, direction_ o) |}.

Definition orders_table {rt : StringPrototype} (db : DB) (collective : gmap string value)
    (args : OrdersArgs) : outcome (gmap string value) * list query :=
  if negb (is_true (sent args) || is_true (received args)) then
    (Throw (NotFound "At least one of `sent` or `received` needs to be true."),
     [])
  else if negb (tier_resolves db collective args) then
    (Throw (NotFound "TierSlug Not Found"), tier_log collective args)
  else
    match orderBy args with
    | None => (Throw TypeError, tier_log collective args)
    | Some o =>
        (match findAndCountAll (Orders db)
                 (orders_options db collective args o) with
         | Ok result => Ok (page (limit args) (offset args) result)
         | Throw e => Throw e
         end,
         tier_log collective args
         ++ [OrderFindAndCountAll (orders_options db collective args o)])
    end.

Definition transactions_options (collective : gmap string value)
    (args : TransactionsArgs) (o : ChronologicalOrder) : FindOptions :=
  {| fo_where := transactions_where collective args;
     fo_limit := tx_limit args; fo_offset := tx_offset args;
     fo_order := (field o, direction_ o) |}.

Definition set_status (args : OrdersArgs) (st : option (list string))
    : OrdersArgs :=
  {| sent := sent args; received := received args; limit := limit args;
     offset := offset args; status := st; tierSlug := tierSlug args;
     orderBy := orderBy args |}.

(** ** More sample data *)

Definition paid_backer_args : OrdersArgs :=
  {| sent := Some true; received := Some true; limit := Some 100;
     offset := Some 0; status := Some ["ACTIVE"; "PAID"];
     tierSlug := Some "Backer"; orderBy := Some newest_first |}.

Definition paid_backer_run :=
  run (accountOrders_resolve (rt := ascii_strings) sample_account
         paid_backer_args) sample_db.

Definition unlimited_args : OrdersArgs :=
  {| sent := Some true; received := Some true; limit := None;
     offset := None; status := None; tierSlug := None;
     orderBy := Some newest_first |}.

Definition unlimited_run (s r : bool) :=
  run (accountOrders_resolve (rt := ascii_strings) sample_account
         (set_direction unlimited_args (Some s) (Some r))) sample_db.

Definition set_window (args : OrdersArgs) (l o : option Z) : OrdersArgs :=
  {| sent := sent args; received := received args; limit := l; offset := o;
     status := status args; tierSlug := tierSlug args;
     orderBy := orderBy args |}.

Definition second_page_args : OrdersArgs :=
  {| sent := Some true; received := Some true; limit := Some 1;
     offset := Some 1; status := None; tierSlug := None;
     orderBy := Some newest_first |}.

Definition second_page_run :=
  run (accountOrders_resolve (rt := ascii_strings) sample_account
         second_page_args) sample_db.

Definition whole_run :=
  run (accountOrders_resolve (rt := ascii_strings) sample_account
         (set_window second_page_args None None)) sample_db.

(** * Proofs *)

(** ** Paths *)

Section Paths.
Import Lodash.

Lemma stringToPath_plain s : has_dot s = false → stringToPath s = [s].
Proof.
  induction s as [|c s IH]; simpl; [done|].
  intros [Hc Hs]%orb_false_elim. rewrite Hc, IH; done.
Qed.

Lemma stringToPath_segments s :
  Forall (λ seg, has_dot seg = false) (stringToPath s).
Proof.
  induction s as [|c s IH]; simpl.
  - by constructor.
  - destruct (is_dot c) eqn:Hc.
    + by constructor.
    + destruct (stringToPath s) as [|seg segs]; inversion IH; subst;
        constructor; simpl; try done; by rewrite Hc.
Qed.

Lemma stringToPath_nonempty s : stringToPath s ≠ [].
Proof.
  destruct s as [|c s]; simpl; [done|].
  destruct (is_dot c); [done|]. by destruct (stringToPath s).
Qed.

Lemma join_dot_stringToPath s : join_dot (stringToPath s) = s.
Proof.
  induction s as [|c s IH]; simpl; [done|].
  destruct (is_dot c) eqn:Hc.
  - apply bool_decide_eq_true in Hc as ->.
    pose proof (stringToPath_nonempty s).
    destruct (stringToPath s) as [|seg segs] eqn:E; [done|].
    simpl in *. by rewrite IH.
  - destruct (stringToPath s) as [|seg segs] eqn:E.
    + by destruct (stringToPath_nonempty s).
    + destruct segs as [|seg' segs]; simpl in *; by rewrite <- IH.
Qed.

Lemma stringToPath_inj s t : stringToPath s = stringToPath t → s = t.
Proof.
  intros H.
  rewrite <- (join_dot_stringToPath s), <- (join_dot_stringToPath t).
  by rewrite H.
Qed.

Lemma stringToPath_dotted a b :
  has_dot a = false →
  stringToPath (a +:+ String "."%char b) = a :: stringToPath b.
Proof.
  induction a as [|c a IH]; simpl; [done|].
  intros [Hc Ha]%orb_false_elim. rewrite Hc, IH; done.
Qed.

Lemma two_segments p a b :
  stringToPath p = [a; b] →
  has_dot p = true ∧ has_dot a = false ∧ has_dot b = false
  ∧ p = a +:+ String "."%char b.
Proof.
  intros H. pose proof (stringToPath_segments p) as Hs. rewrite H in Hs.
  inversion Hs as [|? ? Ha Hs']; subst. inversion Hs' as [|? ? Hb _]; subst.
  repeat split; try done.
  - destruct (has_dot p) eqn:E; [done|].
    rewrite stringToPath_plain in H by done. done.
  - rewrite <- (join_dot_stringToPath p), H. done.
Qed.

Lemma dotted_inj a b b' :
  has_dot a = false →
  a +:+ String "."%char b = a +:+ String "."%char b' → b = b'.
Proof.
  intros Ha H. apply (f_equal stringToPath) in H.
  rewrite !stringToPath_dotted in H by done.
  apply stringToPath_inj. congruence.
Qed.

Lemma dotted_two_segments a b a' b' :
  has_dot a = false →
  stringToPath (a +:+ String "."%char b) = [a'; b'] → a = a' ∧ b = b'.
Proof.
  intros Ha H. rewrite stringToPath_dotted in H by done.
  inversion H as [[Ha' Hb]]. split; [done|].
  apply stringToPath_inj. rewrite Hb.
  pose proof (stringToPath_segments b) as Hs. rewrite Hb in Hs.
  inversion Hs; subst. by rewrite stringToPath_plain.
Qed.

Lemma castPath_plain s object : has_dot s = false → castPath s object = [s].
Proof. intros H. unfold castPath, isKey. by rewrite H. Qed.

End Paths.

(** ** [pick] with plain property names *)

Section PickPlain.
Import Lodash.

Lemma pick_step_plain (m R : gmap string value) (a : string) :
  plain_key a →
  pick_step (VObj m) R a
  = match m !! a with Some v => <[a := v]> R | None => R end.
Proof.
  intros [Hd Hu]. unfold pick_step, hasIn, baseGet.
  rewrite castPath_plain by done.
  simpl. rewrite Hu. by destruct (m !! a).
Qed.

Lemma basePick_plain (m : gmap string value) (ks : list string) :
  Forall plain_key ks →
  ∀ (R : gmap string value) (k : string), R ⊆ m →
    foldl (pick_step (VObj m)) R ks !! k
    = if bool_decide (k ∈ ks) then m !! k else R !! k.
Proof.
  induction 1 as [|a ks Ha Hks IH]; intros R k HR; simpl.
  - done.
  - rewrite pick_step_plain by done.
    rewrite IH.
    + destruct (decide (k = a)) as [->|Hne].
      * rewrite (bool_decide_eq_true_2 (a ∈ a :: ks)) by set_solver.
        destruct (bool_decide (a ∈ ks)); [done|].
        destruct (m !! a) as [v|] eqn:E.
        -- by rewrite lookup_insert_eq.
        -- destruct (R !! a) as [w|] eqn:E'; [|done].
           eapply lookup_weaken in E'; [|exact HR]. congruence.
      * assert (bool_decide (k ∈ a :: ks) = bool_decide (k ∈ ks)) as ->.
        { apply bool_decide_ext. set_solver. }
        destruct (bool_decide (k ∈ ks)); [done|].
        destruct (m !! a); [by rewrite lookup_insert_ne|done].
    + destruct (m !! a) as [v|] eqn:E; [|done].
      by apply insert_subseteq_l.
Qed.

Lemma pick_plain (m : gmap string value) (ks : list string) (k : string) :
  Forall plain_key ks →
  pick (VObj m) ks !! k = if bool_decide (k ∈ ks) then m !! k else None.
Proof.
  intros H. unfold pick, basePick. simpl.
  rewrite basePick_plain; [|done|apply map_empty_subseteq].
  by rewrite lookup_empty.
Qed.

End PickPlain.

(** ** [pick] with paths of two segments *)

Section PickDeep.
Import Lodash.
Variable object : value.

Lemma has_key_not_nullish k : has_key object k = true → nullish object = false.
Proof. by destruct object. Qed.

Lemma walk2 a b : walk object [a; b] = prop (prop object a) b.
Proof.
  simpl. destruct (nullish object) eqn:E.
  - by destruct object.
  - destruct (nullish (prop object a)) eqn:E'; [|done].
    by destruct (prop object a).
Qed.

Lemma hasPath2_not_nullish a b : hasPath object [a; b] = true → nullish object = false.
Proof. simpl. by destruct (nullish object). Qed.

Lemma pick_step_literal R p :
  unsafe_key p = false → has_key object p = true →
  pick_step object R p = <[p := prop object p]> R.
Proof.
  intros Hu Hk. pose proof (has_key_not_nullish _ Hk) as Hn.
  unfold pick_step, hasIn, baseGet, castPath, isKey.
  rewrite Hk, Hn, orb_true_r. simpl. by rewrite Hn, Hk, Hu.
Qed.

Lemma pick_step_deep R p a b :
  stringToPath p = [a; b] → unsafe_key a = false → unsafe_key b = false →
  has_key object p = false →
  pick_step object R p =
    if hasPath object [a; b]
    then <[a := VObj (<[b := prop (prop object a) b]>
                        (match R !! a with Some (VObj m) => m | _ => ∅ end))]> R
    else R.
Proof.
  intros Hp Ha Hb Hk. destruct (two_segments _ _ _ Hp) as (Hd & _).
  unfold pick_step, hasIn, baseGet, castPath, isKey.
  rewrite Hk, Hd, andb_false_r. cbn [negb orb]. rewrite Hp, walk2.
  destruct (hasPath object [a; b]) eqn:E.
  - rewrite (hasPath2_not_nullish _ _ E). cbn [negb andb baseSet].
    by rewrite Ha, Hb.
  - by rewrite andb_false_r.
Qed.

Lemma pick_inv_empty : pick_inv object ∅ ∅.
Proof.
  split.
  - intros k _. unfold lit_entry. rewrite lookup_empty.
    rewrite bool_decide_eq_false_2 by set_solver. done.
  - intros a _. left. apply lookup_empty.
  - intros a b _. unfold lookup2, deep_entry. rewrite lookup_empty.
    rewrite bool_decide_eq_false_2 by set_solver. done.
Qed.

Ltac other_path :=
  match goal with
  | |- context [bool_decide (?x ∈ {[?p]} ∪ ?done)] =>
      rewrite (bool_decide_ext (x ∈ {[p]} ∪ done) (x ∈ done)) by set_solver
  end.

Lemma pick_inv_step R done p :
  deep_path p = true → pick_inv object R done →
  pick_inv object (pick_step object R p) ({[p]} ∪ done).
Proof.
  unfold deep_path. intros Hp [HL HG HD].
  destruct (stringToPath p) as [|a0 [|b0 [|? ?]]] eqn:Ep; try done.
  apply andb_prop in Hp as [[Ha0 Hb0]%andb_prop Hup].
  apply negb_true_iff in Ha0, Hb0, Hup.
  destruct (two_segments _ _ _ Ep) as (Hdp & Hda & Hdb & Hpeq).
  destruct (has_key object p) eqn:Hk.
  - (* the input has a property named [p] itself *)
    rewrite pick_step_literal by done. split.
    + intros k Hdk. unfold lit_entry. destruct (decide (k = p)) as [->|Hne].
      * rewrite lookup_insert_eq, Hk, bool_decide_eq_true_2 by set_solver. done.
      * rewrite lookup_insert_ne, HL by done. unfold lit_entry.
        by other_path.
    + intros a Hdota. rewrite lookup_insert_ne by congruence. by apply HG.
    + intros a b Hdota. unfold lookup2. rewrite lookup_insert_ne by congruence.
      fold (lookup2 R a b). rewrite HD by done. unfold deep_entry. cbn zeta.
      destruct (decide (a +:+ String "."%char b = p)) as [->|Hne].
      * by rewrite Hk, !andb_false_r.
      * by other_path.
  - rewrite (pick_step_deep R p a0 b0) by done.
    destruct (hasPath object [a0; b0]) eqn:Hh.
    + split.
      * intros k Hdk. rewrite lookup_insert_ne by congruence.
        rewrite HL by done. unfold lit_entry.
        destruct (decide (k = p)) as [->|Hne].
        -- by rewrite Hk, !andb_false_r.
        -- by other_path.
      * intros a Hdota. destruct (decide (a = a0)) as [->|Hne].
        -- right. eexists. rewrite lookup_insert_eq. split; [done|].
           apply insert_non_empty.
        -- rewrite lookup_insert_ne by done. by apply HG.
      * intros a b Hdota. unfold lookup2, deep_entry. cbn zeta.
        destruct (decide (a = a0)) as [->|Hne].
        -- rewrite lookup_insert_eq.
           destruct (decide (b = b0)) as [->|Hneb].
           ++ rewrite lookup_insert_eq, <- Hpeq, Hk, Hh.
              by rewrite bool_decide_eq_true_2 by set_solver.
           ++ rewrite lookup_insert_ne by done.
              assert (a0 +:+ String "."%char b ≠ p) as Hnp.
              { rewrite Hpeq. intros E. by apply dotted_inj in E. }
              transitivity (lookup2 R a0 b).
              { unfold lookup2. destruct (R !! a0) as [[]|]; try done. }
              rewrite HD by done. unfold deep_entry. cbn zeta.
              by other_path.
        -- rewrite lookup_insert_ne by done. fold (lookup2 R a b).
           rewrite HD by done. unfold deep_entry. cbn zeta.
           assert (a +:+ String "."%char b ≠ p) as Hnp.
           { intros E. rewrite <- E in Ep.
             apply dotted_two_segments in Ep as [? ?]; done. }
           by other_path.
    + split.
      * intros k Hdk. rewrite HL by done. unfold lit_entry.
        destruct (decide (k = p)) as [->|Hne].
        -- by rewrite Hk, !andb_false_r.
        -- by other_path.
      * done.
      * intros a b Hdota. rewrite HD by done. unfold deep_entry. cbn zeta.
        destruct (decide (a +:+ String "."%char b = p)) as [E|Hne].
        -- rewrite E. rewrite <- E in Ep.
           apply dotted_two_segments in Ep as [-> ->]; [|done].
           by rewrite Hh, !andb_false_r.
        -- by other_path.
Qed.

Lemma pick_inv_foldl paths :
  Forall (λ p, deep_path p = true) paths →
  ∀ R done, pick_inv object R done →
    pick_inv object (foldl (pick_step object) R paths) (list_to_set paths ∪ done).
Proof.
  induction 1 as [|p paths Hp _ IH]; intros R done Hinv; simpl.
  - by rewrite (left_id_L ∅ (∪)).
  - apply (pick_inv_step _ _ p Hp) in Hinv. apply IH in Hinv.
    replace ({[p]} ∪ list_to_set paths ∪ done)
      with (list_to_set paths ∪ ({[p]} ∪ done)) by set_solver.
    done.
Qed.

Lemma pick_inv_pick paths :
  Forall (λ p, deep_path p = true) paths →
  pick_inv object (pick object paths) (list_to_set paths).
Proof.
  intros H. unfold pick. destruct (nullish object) eqn:En.
  - split.
    + intros k _. rewrite lookup_empty. unfold lit_entry.
      assert (has_key object k = false) as -> by by destruct object.
      by rewrite andb_false_r.
    + intros a _. left. apply lookup_empty.
    + intros a b _. unfold lookup2, deep_entry. rewrite lookup_empty. cbn zeta.
      assert (hasPath object [a; b] = false) as ->.
      { simpl. by rewrite En. }
      by rewrite andb_false_r.
  - pose proof (pick_inv_foldl paths H ∅ ∅ pick_inv_empty) as Hinv.
    by rewrite (right_id_L ∅ (∪)) in Hinv.
Qed.
End PickDeep.

(** ** [pick] keeps exactly the listed paths that the input has *)

Section PickExact.
Import Lodash.

Lemma hasPath2_lookup2 (R : gmap string value) a b :
  hasPath (VObj R) [a; b] = bool_decide (is_Some (lookup2 R a b)).
Proof.
  unfold lookup2. simpl. destruct (R !! a) as [x|] eqn:E; simpl.
  - destruct x; simpl; try done. by rewrite andb_true_r.
  - done.
Qed.

Lemma prop2_lookup2 (R : gmap string value) a b :
  prop (prop (VObj R) a) b = default VUndefined (lookup2 R a b).
Proof.
  unfold lookup2. simpl. destruct (R !! a) as [x|]; [|done]. by destruct x.
Qed.

Lemma hasPath2_false object a b :
  hasPath object [a; b] = false → prop (prop object a) b = VUndefined.
Proof.
  destruct object as [| | | | | | |m]; try done. simpl.
  destruct (m !! a) as [x|] eqn:E; simpl; [|done].
  destruct x as [| | | | | | |m']; try done. simpl.
  by destruct (m' !! b) eqn:E'.
Qed.

Lemma has_dot_dotted a b : has_dot (a +:+ String "."%char b) = true.
Proof. induction a as [|c a IH]; simpl; [done|]. by rewrite IH, orb_true_r. Qed.

Lemma deep_path_segments p :
  deep_path p = true → ∃ a b, stringToPath p = [a; b].
Proof.
  unfold deep_path. destruct (stringToPath p) as [|a [|b [|? ?]]]; try done.
  eauto.
Qed.

Lemma hasIn_literal object p :
  has_key object p = true →
  hasIn object p = true ∧ baseGet object p = prop object p.
Proof.
  intros Hk. pose proof (has_key_not_nullish _ _ Hk) as Hn.
  unfold hasIn, baseGet, castPath, isKey.
  rewrite Hk, Hn, orb_true_r. simpl. by rewrite Hn, Hk.
Qed.

Lemma hasIn_deep object p a b :
  stringToPath p = [a; b] → has_key object p = false →
  hasIn object p = hasPath object [a; b]
  ∧ baseGet object p = prop (prop object a) b.
Proof.
  intros Hp Hk. destruct (two_segments _ _ _ Hp) as (Hd & _).
  unfold hasIn, baseGet, castPath, isKey.
  rewrite Hk, Hd, andb_false_r. cbn [negb orb]. rewrite Hp, walk2.
  split; [|done]. simpl. by destruct (nullish object).
Qed.

Lemma pick_exact object paths :
  Forall (λ p, deep_path p = true) paths →
  picked_exactly paths object (pick object paths).
Proof.
  intros Hpaths. pose proof (pick_inv_pick object paths Hpaths) as [HL HG HD].
  set (R := pick object paths) in *. split.
  - intros p Hp.
    assert (deep_path p = true) as Hdp by (by eapply Forall_forall in Hpaths).
    destruct (deep_path_segments _ Hdp) as (a & b & Hseg).
    destruct (two_segments _ _ _ Hseg) as (Hd & Ha & Hb & Heq).
    specialize (HL p Hd). unfold lit_entry in HL.
    rewrite bool_decide_eq_true_2 in HL by set_solver. simpl in HL.
    destruct (has_key object p) eqn:Hk.
    + destruct (hasIn_literal object p Hk) as [-> ->].
      assert (has_key (VObj R) p = true) as HkR.
      { simpl. rewrite HL. apply bool_decide_eq_true_2; eauto. }
      destruct (hasIn_literal (VObj R) p HkR) as [-> ->].
      simpl. by rewrite HL.
    + assert (has_key (VObj R) p = false) as HkR.
      { simpl. rewrite HL. apply bool_decide_eq_false_2. by intros [? ?]. }
      destruct (hasIn_deep object p a b Hseg Hk) as [-> ->].
      destruct (hasIn_deep (VObj R) p a b Hseg HkR) as [-> ->].
      rewrite hasPath2_lookup2, prop2_lookup2, HD by done.
      unfold deep_entry. cbn zeta. rewrite <- Heq, Hk.
      rewrite (bool_decide_eq_true_2 (p ∈ _)) by set_solver.
      cbn [negb andb].
      destruct (hasPath object [a; b]) eqn:Hh.
      * split; [|done]. apply bool_decide_eq_true_2; eauto.
      * rewrite hasPath2_false by done. split; [|done].
        apply bool_decide_eq_false_2. by intros [? ?].
  - intros k v Hkv. destruct (has_dot k) eqn:Hd.
    + left. rewrite HL in Hkv by done. unfold lit_entry in Hkv.
      destruct (bool_decide (k ∈ list_to_set paths)) eqn:Hin; [|done].
      destruct (has_key object k) eqn:Hk; [|done].
      apply bool_decide_eq_true in Hin. simpl in Hkv.
      destruct (hasIn_literal object k Hk) as [-> ->].
      split; [set_solver|]. split; congruence.
    + right. destruct (HG k Hd) as [HN|(m & Hm & Hne)]; [congruence|].
      exists m. split; [congruence|]. split; [done|].
      intros b w Hb. cbn zeta.
      assert (lookup2 R k b = Some w) as H2 by (unfold lookup2; by rewrite Hm).
      rewrite HD in H2 by done. unfold deep_entry in H2. cbn zeta in H2.
      destruct (bool_decide (k +:+ String "."%char b ∈ list_to_set paths))
        eqn:Hin; [|done].
      destruct (has_key object (k +:+ String "."%char b)) eqn:Hk; [done|].
      destruct (hasPath object [k; b]) eqn:Hh; [|done].
      apply bool_decide_eq_true in Hin. simpl in H2.
      assert (k +:+ String "."%char b ∈ paths) as Hp by set_solver.
      assert (deep_path (k +:+ String "."%char b) = true) as Hdp
        by (by eapply Forall_forall in Hpaths).
      destruct (deep_path_segments _ Hdp) as (a' & b' & Hseg).
      destruct (dotted_two_segments _ _ _ _ Hd Hseg) as [<- <-].
      destruct (hasIn_deep object _ k b Hseg Hk) as [-> ->].
      split; [done|]. split; congruence.
Qed.

End PickExact.

(** ** The sanitizer *)

Section Sanitizer.
Import Lodash.

Lemma common_fields_plain : Forall plain_key common_fields.
Proof. repeat constructor. Qed.

Lemma allowlist_deep t : Forall (λ p, deep_path p = true) (allowlist t).
Proof.
  unfold allowlist. repeat case_bool_decide; repeat constructor.
Qed.

Lemma pick_nil object : pick object [] = ∅.
Proof. unfold pick. by destruct (nullish object). Qed.

Lemma clean_type (activity : gmap string value) :
  prop (VObj (pick (VObj activity) common_fields)) "type"
  = default VUndefined (activity !! "type").
Proof.
  simpl. rewrite pick_plain by apply common_fields_plain. done.
Qed.

Lemma strict_eq_str_type (activity : gmap string value) t :
  strict_eq_str (default VUndefined (activity !! "type")) t = true
  ↔ activity !! "type" = Some (VStr t).
Proof.
  destruct (activity !! "type") as [v|]; simpl; [|done].
  destruct v; simpl; try done. rewrite bool_decide_eq_true. split; congruence.
Qed.

Lemma sanitizeActivity_data (activity : gmap string value) :
  sanitizeActivity activity !! "data"
  = Some (VObj
      match activity !! "type" with
      | Some (VStr t) => pick (prop (VObj activity) "data") (allowlist t)
      | _ => ∅
      end).
Proof.
  unfold sanitizeActivity. fold common_fields. rewrite clean_type.
  destruct (activity !! "type") as [v|] eqn:E; simpl;
    [|by rewrite lookup_insert_eq].
  destruct v as [| | | |t| | |]; simpl; try by rewrite lookup_insert_eq.
  unfold allowlist, Activities.COLLECTIVE_TRANSACTION_CREATED,
    Activities.COLLECTIVE_UPDATE_PUBLISHED,
    Activities.COLLECTIVE_EXPENSE_CREATED.
  repeat (case_bool_decide; [by rewrite lookup_insert_eq|]).
  rewrite lookup_insert_eq, pick_nil. done.
Qed.

Lemma sanitizeActivity_other (activity : gmap string value) k :
  k ≠ "data" →
  sanitizeActivity activity !! k
  = if bool_decide (k ∈ common_fields) then activity !! k else None.
Proof.
  intros Hk. rewrite <- (pick_plain activity common_fields k)
    by apply common_fields_plain.
  unfold sanitizeActivity. fold common_fields.
  repeat match goal with
         | |- context [if ?b then _ else _] => destruct b
         end; by rewrite !lookup_insert_ne.
Qed.

End Sanitizer.

(** ** The store *)

Section Store.

Lemma insert_row_elem column d (row x : gmap string value) rows :
  x ∈ insert_row column d row rows ↔ x = row ∨ x ∈ rows.
Proof.
  induction rows as [|r rows IH]; simpl.
  - set_solver.
  - destruct (comes_first d _ _); [set_solver|].
    rewrite !elem_of_cons, IH. tauto.
Qed.

Lemma order_rows_elem order (x : gmap string value) rows :
  x ∈ order_rows order rows ↔ x ∈ rows.
Proof.
  unfold order_rows. induction rows as [|r rows IH]; simpl; [done|].
  rewrite insert_row_elem, IH. set_solver.
Qed.

Lemma window_elem {A} limit offset (rows w : list A) x :
  window limit offset rows = Some w → x ∈ w → x ∈ rows.
Proof.
  unfold window. case_bool_decide; [|done]. intros [= <-] Hx.
  destruct limit.
  - apply subseteq_take in Hx. by apply subseteq_drop in Hx.
  - by apply subseteq_drop in Hx.
Qed.

Lemma findAndCountAll_Ok table options result :
  findAndCountAll table options = Ok result →
  ∃ rows,
    result = <["count" := VNum (Z.of_nat (length
                 (filter (fun row => matches (fo_where options) row = true) table)))]>
               (<["rows" := VArr (VObj <$> rows)]> ∅)
    ∧ ∀ row, row ∈ rows → row ∈ table ∧ matches (fo_where options) row = true.
Proof.
  unfold findAndCountAll.
  destruct (window _ _ _) as [rows|] eqn:E; [|done].
  intros [= <-]. exists rows. split; [done|].
  intros row Hrow. eapply window_elem in Hrow; [|exact E].
  apply order_rows_elem, list_elem_of_filter in Hrow. tauto.
Qed.

Lemma findOne_Some table where_ row :
  findOne table where_ = Some row → row ∈ table ∧ matches where_ row = true.
Proof.
  unfold findOne. intros [H1 H2]%find_some. by rewrite list_elem_of_In.
Qed.

Lemma findOne_None table where_ :
  Forall (fun row => matches where_ row = false) table →
  findOne table where_ = None.
Proof.
  unfold findOne. induction 1 as [|row table Hrow _ IH]; simpl; [done|].
  by rewrite Hrow.
Qed.

Lemma page_lookup_limit limit offset (result : gmap string value) :
  result !! "limit" = None →
  page limit offset result !! "limit" = Some (int_value limit).
Proof.
  intros H. unfold page. rewrite lookup_union_r by done.
  by rewrite lookup_insert_eq.
Qed.

Lemma page_lookup_offset limit offset (result : gmap string value) :
  result !! "offset" = None →
  page limit offset result !! "offset" = Some (int_value offset).
Proof.
  intros H. unfold page. rewrite lookup_union_r by done.
  rewrite lookup_insert_ne by done. by rewrite lookup_insert_eq.
Qed.

Lemma page_lookup_result limit offset (result : gmap string value) k v :
  result !! k = Some v → page limit offset result !! k = Some v.
Proof. intros H. unfold page. by apply lookup_union_Some_l. Qed.

Lemma page_dom limit offset (result : gmap string value) :
  dom (page limit offset result) = dom result ∪ {["limit"; "offset"]}.
Proof.
  unfold page. rewrite dom_union_L, !dom_insert_L, dom_empty_L. set_solver.
Qed.

End Store.

(** ** The orders resolver, case by case *)

Section Orders.
Context {rt : StringPrototype}.
Variable db : DB.
Variable collective : gmap string value.
Variable args : OrdersArgs.

Let id := prop (VObj collective) "id".

Lemma orders_no_direction :
  is_true (sent args) = false → is_true (received args) = false →
  run (accountOrders_resolve collective args) db
  = (Throw (NotFound "At least one of `sent` or `received` needs to be true."),
     []).
Proof.
  intros Hs Hr. unfold run, accountOrders_resolve, mbind, M_bind, bind.
  by rewrite Hs, Hr.
Qed.

Lemma orders_tier_not_found :
  is_true (sent args) || is_true (received args) = true →
  non_empty (tierSlug args) = true →
  findOne (Tiers db)
    [Col "CollectiveId" (Is id);
     Col "slug" (Is (VStr (toLowerCase (default "" (tierSlug args)))))] = None →
  run (accountOrders_resolve collective args) db
  = (Throw (NotFound "TierSlug Not Found"),
     [TierFindOne
        [Col "CollectiveId" (Is id);
         Col "slug" (Is (VStr (toLowerCase (default "" (tierSlug args)))))]]).
Proof.
  intros Hd Ht Hf.
  unfold run, accountOrders_resolve, mbind, M_bind, bind, models.Tier_findOne.
  fold id. rewrite Ht, Hf.
  destruct (is_true (sent args)), (is_true (received args)); done.
Qed.

(** What a successful call has done. *)
Lemma orders_success p log :
  run (accountOrders_resolve collective args) db = (Ok p, log) →
  ∃ rest order result tierlog,
    let base :=
      if is_true (sent args) && is_true (received args)
      then OpOr [("CollectiveId", id); ("FromCollectiveId", id)]
      else if is_true (sent args) then Col "FromCollectiveId" (Is id)
      else Col "CollectiveId" (Is id) in
    let options :=
      {| fo_where := base :: rest; fo_limit := limit args;
         fo_offset := offset args; fo_order := order |} in
    is_true (sent args) || is_true (received args) = true
    ∧ log = tierlog ++ [OrderFindAndCountAll options]
    ∧ findAndCountAll (Orders db) options = Ok result
    ∧ p = page (limit args) (offset args) result
    ∧ (∀ w, TierFindOne w ∈ tierlog →
         non_empty (tierSlug args) = true
         ∧ w = [Col "CollectiveId" (Is id);
                Col "slug" (Is (VStr (toLowerCase (default "" (tierSlug args)))))])
    ∧ (∀ v, Col "TierId" (Is v) ∈ rest →
         ∃ t, t ∈ Tiers db ∧ v = prop (VObj t) "id"
              ∧ sql_eq (prop (VObj t) "CollectiveId") id = true
              ∧ sql_eq (prop (VObj t) "slug")
                  (VStr (toLowerCase (default "" (tierSlug args)))) = true)
    ∧ (non_empty (tierSlug args) = true → ∃ v, Col "TierId" (Is v) ∈ rest).
Proof.
  unfold run, accountOrders_resolve, mbind, M_bind, bind, models.Tier_findOne,
    models.Order_findAndCountAll, order_of, ret, throw.
  fold id. intros H.
  set (st := match status args with
             | Some (s :: ss) => [Col "status" (OpIn (VStr <$> s :: ss))]
             | _ => []
             end).
  assert (∀ base, match status args with
                  | Some (s :: ss) => [base] ++ [Col "status" (OpIn (VStr <$> s :: ss))]
                  | _ => [base]
                  end = base :: st) as Hst.
  { intros base. subst st. by destruct (status args) as [[|? ?]|]. }
  assert (∀ v, Col "TierId" (Is v) ∈ st → False) as Hnost.
  { intros v. subst st. destruct (status args) as [[|? ?]|]; set_solver. }
  destruct (is_true (sent args)) eqn:Hs, (is_true (received args)) eqn:Hr;
    cbn [andb orb] in *; try done;
    rewrite Hst in H;
    (destruct (non_empty (tierSlug args)) eqn:Ht;
     [ destruct (findOne (Tiers db) _) as [t|] eqn:Hf; [|done];
       apply findOne_Some in Hf as [Hin Hm];
       unfold matches in Hm; cbn in Hm; rewrite andb_true_r in Hm;
       apply andb_prop in Hm as [Hm1 Hm2]
     | ]);
    (destruct (orderBy args) as [o|]; [|done]);
    (destruct (findAndCountAll _ _) as [result|] eqn:Hfa; [|done]);
    inversion H; subst p log; clear H.
  all: first
    [ exists (st ++ [Col "TierId" (Is (prop (VObj t) "id"))]),
        (field o, direction_ o), result,
        [TierFindOne [Col "CollectiveId" (Is id);
           Col "slug" (Is (VStr (toLowerCase (default "" (tierSlug args)))))]]
    | exists st, (field o, direction_ o), result, [] ];
    cbn zeta; split_and!; try done.
  all: try (intros w Hw; apply list_elem_of_singleton in Hw;
            by injection Hw as ->).
  all: try (intros w Hw; by apply elem_of_nil in Hw).
  all: try (intros v Hv; by destruct (Hnost v)).
  all: try (intros v [Hv|Hv]%elem_of_app;
            [ by destruct (Hnost v)
            | apply list_elem_of_singleton in Hv; injection Hv as ->;
              by exists t ]).
  all: intros _; eexists; apply elem_of_app; right;
       by apply list_elem_of_singleton.
Qed.

End Orders.

(** ** The transactions resolver *)

Lemma transactions_success db collective args p log :
  run (accountTransactions_resolve collective args) db = (Ok p, log) →
  ∃ options result,
    log = [TransactionFindAndCountAll options]
    ∧ fo_limit options = tx_limit args ∧ fo_offset options = tx_offset args
    ∧ findAndCountAll (Transactions db) options = Ok result
    ∧ p = page (tx_limit args) (tx_offset args) result.
Proof.
  unfold run, accountTransactions_resolve, mbind, M_bind, bind,
    models.Transaction_findAndCountAll, order_of, ret, throw.
  destruct (tx_orderBy args) as [o|]; [|done].
  destruct (findAndCountAll _ _) as [result|] eqn:E; [|done].
  intros [= <- <-]. eexists _, result. split_and!; try done.
Qed.

Lemma page_of_result limit offset table options result :
  findAndCountAll table options = Ok result →
  page_shape limit offset (page limit offset result).
Proof.
  intros (rows & -> & _)%findAndCountAll_Ok. split_and!.
  - rewrite page_dom, !dom_insert_L, dom_empty_L. set_solver.
  - by apply page_lookup_limit.
  - by apply page_lookup_offset.
  - eexists _, _. split; by apply page_lookup_result.
Qed.

Lemma store_page_of_result limit offset table options result :
  findAndCountAll table options = Ok result →
  store_page limit offset result (page limit offset result).
Proof.
  intros H. split; [by eapply page_of_result|].
  apply findAndCountAll_Ok in H as (rows & -> & _). split.
  - rewrite lookup_insert_eq. apply page_lookup_result.
    by rewrite lookup_insert_eq.
  - rewrite lookup_insert_ne, lookup_insert_eq by done.
    apply page_lookup_result. by rewrite lookup_insert_ne, lookup_insert_eq.
Qed.

(** ** Tier lookups of the orders resolver *)

Lemma non_empty_Some o : non_empty o = true → ∃ s, o = Some s ∧ s ≠ "".
Proof.
  destruct o as [s|]; simpl; [|done].
  intros H%negb_true_iff%bool_decide_eq_false. eauto.
Qed.

Lemma orders_tier_queries {rt : StringPrototype} db collective args w :
  TierFindOne w ∈ (run (accountOrders_resolve collective args) db).2 →
  ∃ s, tierSlug args = Some s ∧ s ≠ "" ∧ w = tier_where collective s.
Proof.
  unfold run, accountOrders_resolve, mbind, M_bind, bind, models.Tier_findOne,
    models.Order_findAndCountAll, order_of, ret, throw, tier_where.
  destruct (non_empty (tierSlug args)) eqn:Ht.
  - destruct (non_empty_Some _ Ht) as (s & Hs & Hne). rewrite Hs. simpl.
    intros H. exists s. split_and!; [done..|].
    destruct (is_true (sent args)), (is_true (received args));
      cbn [andb] in H; simpl in H;
      try (by apply elem_of_nil in H);
      (destruct (findOne _ _); simpl in H;
       [ destruct (orderBy args); simpl in H;
         [ destruct (findAndCountAll _ _); simpl in H |] |]);
      set_solver.
  - intros H.
    destruct (is_true (sent args)), (is_true (received args));
      cbn [andb] in H; simpl in H;
      try (by apply elem_of_nil in H);
      (destruct (orderBy args); simpl in H;
       [ destruct (findAndCountAll _ _); simpl in H |]);
      set_solver.
Qed.

Lemma non_empty_same s s' :
  (s = "" ↔ s' = "") → non_empty (Some s) = non_empty (Some s').
Proof. intros H. simpl. f_equal. by apply bool_decide_ext. Qed.

Lemma orders_same_lower_case {rt : StringPrototype} db collective args s s' :
  toLowerCase s = toLowerCase s' → (s = "" ↔ s' = "") →
  run (accountOrders_resolve collective (set_tierSlug args (Some s))) db
  = run (accountOrders_resolve collective (set_tierSlug args (Some s'))) db.
Proof.
  intros H He. unfold run, accountOrders_resolve. cbn [set_tierSlug sent received
    limit offset status tierSlug orderBy].
  rewrite (non_empty_same s s' He). cbn [from_option id]. by rewrite H.
Qed.

Section OrdersLog.
Context {rt : StringPrototype}.
Variable db : DB.
Variable collective : gmap string value.
Variable args : OrdersArgs.
Let id := prop (VObj collective) "id".

Ltac orders_cases_in H :=
  repeat match type of H with
         | context [status ?a] =>
             destruct (status a) as [[|? ?]|]; simpl in H
         | context [non_empty ?x] => destruct (non_empty x); simpl in H
         | context [findOne ?t ?w] => destruct (findOne t w); simpl in H
         | context [orderBy ?a] => destruct (orderBy a); simpl in H
         | context [findAndCountAll ?t ?o] =>
             destruct (findAndCountAll t o); simpl in H
         end.

Ltac orders_cases :=
  repeat match goal with
         | |- context [findOne ?t ?w] => destruct (findOne t w); simpl
         | |- context [orderBy ?a] => destruct (orderBy a); simpl
         | |- context [findAndCountAll ?t ?o] =>
             destruct (findAndCountAll t o); simpl
         end.

Lemma orders_order_queries options :
  OrderFindAndCountAll options
    ∈ (run (accountOrders_resolve collective args) db).2 →
  is_true (sent args) || is_true (received args) = true
  ∧ ∃ rest,
      fo_where options
      = (if is_true (sent args) && is_true (received args)
         then OpOr [("CollectiveId", id); ("FromCollectiveId", id)]
         else if is_true (sent args) then Col "FromCollectiveId" (Is id)
         else Col "CollectiveId" (Is id)) :: rest.
Proof.
  unfold run, accountOrders_resolve, mbind, M_bind, bind, models.Tier_findOne,
    models.Order_findAndCountAll, order_of, ret, throw.
  fold id. intros H.
  destruct (is_true (sent args)), (is_true (received args));
    cbn [andb orb] in *; simpl in H;
    try (by apply elem_of_nil in H);
    (split; [done|]);
    orders_cases_in H;
    repeat match goal with
           | H : _ ∈ [] |- _ => by apply elem_of_nil in H
           | H : _ ∈ _ :: _ |- _ => apply elem_of_cons in H as [H|H]
           | H : OrderFindAndCountAll _ = OrderFindAndCountAll _ |- _ =>
               injection H as ->; cbn [fo_where]; eexists; reflexivity
           | H : OrderFindAndCountAll _ = TierFindOne _ |- _ => discriminate H
           end.
Qed.

Lemma orders_tier_query_issued s :
  is_true (sent args) || is_true (received args) = true →
  tierSlug args = Some s → s ≠ "" →
  TierFindOne (tier_where collective s)
    ∈ (run (accountOrders_resolve collective args) db).2.
Proof.
  unfold run, accountOrders_resolve, mbind, M_bind, bind, models.Tier_findOne,
    models.Order_findAndCountAll, order_of, ret, throw, tier_where.
  intros Hd Hs Hne. rewrite Hs. simpl.
  rewrite (bool_decide_eq_false_2 (s = "")) by done. simpl.
  destruct (is_true (sent args)), (is_true (received args));
    cbn [andb orb] in *; try done; simpl;
    orders_cases; set_solver.
Qed.

End OrdersLog.

(** ** LegalDocument *)

Lemma sql_eq_refl_r a b : sql_eq a b = true → sql_eq b b = true.
Proof.
  destruct a, b; simpl; try done; intros _;
    first [apply Z.eqb_refl | by apply bool_decide_eq_true_2].
Qed.

Lemma references_collective_refl db id :
  models.references_collective db id = true → sql_eq id id = true.
Proof.
  unfold models.references_collective. intros (row & _ & H)%existsb_exists.
  by eapply sql_eq_refl_r.
Qed.

Lemma references_collective_undefined db :
  models.references_collective db VUndefined = false.
Proof.
  unfold models.references_collective.
  induction (Collectives db) as [|row rows IH]; [done|].
  cbn [existsb]. rewrite IH. by destruct (prop (VObj row) "id").
Qed.

(** ** The orders resolver as a decision table *)

Lemma orders_table_run {rt : StringPrototype} db collective args :
  run (accountOrders_resolve collective args) db
  = orders_table db collective args.
Proof.
  unfold run, accountOrders_resolve, orders_table, mbind, M_bind, bind,
    models.Tier_findOne, models.Order_findAndCountAll, order_of, ret, throw,
    orders_options, orders_where, direction_filter, status_filter,
    tier_filter, tier_resolves, tier_log, tier_where.
  destruct (is_true (sent args)), (is_true (received args));
    cbn [andb orb negb]; try reflexivity;
    (destruct (status args) as [[|? ?]|]);
    (destruct (non_empty (tierSlug args)); cbn [andb orb negb];
     [ destruct (findOne _ _); cbn [andb orb negb] |]);
    try reflexivity;
    (destruct (orderBy args); [|reflexivity]);
    cbn [app];
    (destruct (findAndCountAll _ _); reflexivity).
Qed.

(** ** The store, further *)

Lemma insert_row_length column d (row : gmap string value) rows :
  length (insert_row column d row rows) = S (length rows).
Proof.
  induction rows as [|r rows IH]; simpl; [done|].
  destruct (comes_first d _ _); simpl; by rewrite ?IH.
Qed.

Lemma order_rows_length order (rows : list (gmap string value)) :
  length (order_rows order rows) = length rows.
Proof.
  unfold order_rows. induction rows as [|r rows IH]; simpl; [done|].
  by rewrite insert_row_length, IH.
Qed.

Lemma findAndCountAll_window table options :
  (∃ result, findAndCountAll table options = Ok result)
  ↔ window_ok (fo_limit options) (fo_offset options) = true.
Proof.
  unfold findAndCountAll, window, window_ok.
  destruct (bool_decide _); split; try done; eauto.
  by intros [? ?].
Qed.

Lemma findAndCountAll_throws table options e :
  findAndCountAll table options = Throw e → e = DatabaseError.
Proof.
  unfold findAndCountAll. destruct (window _ _ _); [done|]. by intros [= <-].
Qed.

Lemma findAndCountAll_unlimited table options result :
  fo_limit options = None → fo_offset options = None →
  findAndCountAll table options = Ok result →
  ∃ rows,
    result = <["count" := VNum (Z.of_nat (length rows))]>
               (<["rows" := VArr (VObj <$> rows)]> ∅)
    ∧ ∀ row, row ∈ rows ↔ row ∈ table ∧ matches (fo_where options) row = true.
Proof.
  unfold findAndCountAll, window. intros -> ->. simpl.
  intros [= <-]. eexists. split.
  - by rewrite order_rows_length.
  - intros row. rewrite order_rows_elem, list_elem_of_filter. tauto.
Qed.

Lemma rows_of_page limit offset n rows :
  rows_of (page limit offset
             (<["count" := VNum n]> (<["rows" := VArr rows]> ∅))) = rows.
Proof.
  unfold rows_of.
  rewrite (page_lookup_result _ _ _ "rows" (VArr rows)); [done|].
  by rewrite lookup_insert_ne, lookup_insert_eq.
Qed.

Lemma matches_cons e where_ row :
  matches (e :: where_) row = entry_holds row e && matches where_ row.
Proof. done. Qed.

Lemma matches_app w1 w2 row :
  matches (w1 ++ w2) row = matches w1 row && matches w2 row.
Proof. unfold matches. apply forallb_app. Qed.

Lemma sql_eq_VStr v x : sql_eq v (VStr x) = true → v = VStr x.
Proof.
  destruct v; simpl; try done. by intros ->%bool_decide_eq_true.
Qed.

(** ** The orders resolver, further *)

Section OrdersFurther.
Context {rt : StringPrototype}.
Variable db : DB.
Variable collective : gmap string value.
Variable args : OrdersArgs.

Lemma orders_page p log :
  run (accountOrders_resolve collective args) db = (Ok p, log) →
  ∃ o rows,
    orderBy args = Some o
    ∧ is_true (sent args) || is_true (received args) = true
    ∧ tier_resolves db collective args = true
    ∧ log = tier_log collective args
            ++ [OrderFindAndCountAll (orders_options db collective args o)]
    ∧ findAndCountAll (Orders db) (orders_options db collective args o)
      = Ok (<["count" := VNum (Z.of_nat (length
               (filter (fun row =>
                          matches (orders_where db collective args) row = true)
                       (Orders db))))]>
              (<["rows" := VArr (VObj <$> rows)]> ∅))
    ∧ rows_of p = VObj <$> rows
    ∧ ∀ row, row ∈ rows →
        row ∈ Orders db ∧ matches (orders_where db collective args) row = true.
Proof.
  rewrite orders_table_run. unfold orders_table.
  destruct (is_true (sent args) || is_true (received args)); [|done].
  destruct (tier_resolves db collective args); [|done]. cbn [negb].
  destruct (orderBy args) as [o|]; [|done].
  destruct (findAndCountAll _ _) as [result|] eqn:Hfa; [|done].
  intros [= <- <-].
  destruct (findAndCountAll_Ok _ _ _ Hfa) as (rows & -> & Hrows).
  exists o, rows. split_and!; try done.
Qed.

End OrdersFurther.

Lemma tier_unresolved {rt : StringPrototype} db collective args :
  tier_resolves db collective args = false
  ↔ ∃ s, tierSlug args = Some s ∧ s ≠ ""
         ∧ findOne (Tiers db) (tier_where collective s) = None.
Proof.
  unfold tier_resolves. destruct (tierSlug args) as [s|].
  - change (default "" (Some s)) with s. cbn [non_empty].
    destruct (decide (s = "")) as [->|Hne].
    + rewrite (bool_decide_eq_true_2 ("" = "")) by done. cbn [negb orb].
      split; [done|]. by intros (s & [= <-] & ? & _).
    + rewrite (bool_decide_eq_false_2 (s = "")) by done. cbn [negb orb].
      rewrite bool_decide_eq_false. split.
      * intros Hn. exists s. split_and!; [done..|].
        destruct (findOne _ _) eqn:E; [|done]. destruct Hn. eauto.
      * intros (s' & [= <-] & _ & Hf) [t Ht]. congruence.
  - split; [done|]. by intros (s & ? & _).
Qed.

Lemma transactions_table_run db collective args :
  run (accountTransactions_resolve collective args) db
  = match tx_orderBy args with
    | None => (Throw TypeError, [])
    | Some o =>
        (match findAndCountAll (Transactions db)
                 (transactions_options collective args o) with
         | Ok result => Ok (page (tx_limit args) (tx_offset args) result)
         | Throw e => Throw e
         end,
         [TransactionFindAndCountAll (transactions_options collective args o)])
    end.
Proof.
  unfold run, accountTransactions_resolve, mbind, M_bind, bind,
    models.Transaction_findAndCountAll, order_of, ret, throw,
    transactions_options, transactions_where.
  destruct (tx_orderBy args); [|reflexivity].
  destruct (non_empty (tx_type args)); cbn [app];
    destruct (findAndCountAll _ _); reflexivity.
Qed.

(** * The properties *)

(** C1: when a direction is asked for, the tier slug, if any, resolves and
    the order argument is there, the orders resolver asks the store for
    orders, and the where object of that query starts with the condition
    chosen by [sent] and [received]: with both true, [CollectiveId] or
    [FromCollectiveId] is the account's id; with only [sent] true,
    [FromCollectiveId] is; with only [received] true, [CollectiveId] is.
    It asks for orders in no other way, and every order of the page it
    returns satisfies that condition. *)
Theorem orders_query_by_direction {rt : StringPrototype} db collective args :
  let id := prop (VObj collective) "id" in
  (∀ o, tier_resolves db collective args = true → orderBy args = Some o →
     ∃ rest,
       (is_true (sent args) = true → is_true (received args) = true →
          last (run (accountOrders_resolve collective args) db).2
          = Some (order_query args o
                    (OpOr [("CollectiveId", id); ("FromCollectiveId", id)]
                     :: rest)))
       ∧ (is_true (sent args) = true → is_true (received args) = false →
            last (run (accountOrders_resolve collective args) db).2
            = Some (order_query args o
                      (Col "FromCollectiveId" (Is id) :: rest)))
       ∧ (is_true (sent args) = false → is_true (received args) = true →
            last (run (accountOrders_resolve collective args) db).2
            = Some (order_query args o
                      (Col "CollectiveId" (Is id) :: rest))))
  ∧ (∀ options,
       OrderFindAndCountAll options
         ∈ (run (accountOrders_resolve collective args) db).2 →
       ∃ rest,
         (is_true (sent args) = true → is_true (received args) = true →
            fo_where options
            = OpOr [("CollectiveId", id); ("FromCollectiveId", id)] :: rest)
         ∧ (is_true (sent args) = true → is_true (received args) = false →
              fo_where options = Col "FromCollectiveId" (Is id) :: rest)
         ∧ (is_true (sent args) = false → is_true (received args) = true →
              fo_where options = Col "CollectiveId" (Is id) :: rest))
  ∧ (∀ p log,
       run (accountOrders_resolve collective args) db = (Ok p, log) →
       ∃ options rows,
         last log = Some (OrderFindAndCountAll options)
         ∧ p !! "rows" = Some (VArr (VObj <$> rows))
         ∧ (is_true (sent args) = true → is_true (received args) = true →
              Forall (fun row =>
                        sql_eq (prop (VObj row) "CollectiveId") id = true
                        ∨ sql_eq (prop (VObj row) "FromCollectiveId") id = true)
                     rows)
         ∧ (is_true (sent args) = true → is_true (received args) = false →
              Forall (fun row =>
                        sql_eq (prop (VObj row) "FromCollectiveId") id = true)
                     rows)
         ∧ (is_true (sent args) = false → is_true (received args) = true →
              Forall (fun row =>
                        sql_eq (prop (VObj row) "CollectiveId") id = true)
                     rows)).
Proof.
  intros id. split_and!.
  - intros o Ht Ho.
    exists (status_filter args ++ tier_filter db collective args).
    rewrite orders_table_run. unfold orders_table. rewrite Ht, Ho.
    unfold order_query, orders_options, orders_where, direction_filter.
    fold id.
    split_and!; intros Hs Hr; rewrite Hs, Hr; cbn [orb andb negb snd];
      by rewrite last_snoc.
  - intros options (_ & rest & Hw)%orders_order_queries. fold id in Hw.
    exists rest. split_and!; intros Hs Hr; by rewrite Hs, Hr in Hw.
  - intros p log H.
    destruct (orders_success _ _ _ _ _ H)
      as (rest & order & result & tierlog & _ & -> & Hfa & -> & _).
    fold id in Hfa.
    destruct (findAndCountAll_Ok _ _ _ Hfa) as (rows & -> & Hrows).
    eexists _, rows. split_and!.
    + by rewrite last_snoc.
    + apply page_lookup_result. by rewrite lookup_insert_ne, lookup_insert_eq.
    + intros Hs Hr. apply Forall_forall. intros row [_ Hm]%Hrows.
      cbn in Hm. rewrite Hs, Hr in Hm. cbn in Hm.
      apply andb_prop in Hm as [Hm _]. rewrite orb_false_r in Hm.
      by apply orb_prop in Hm.
    + intros Hs Hr. apply Forall_forall. intros row [_ Hm]%Hrows.
      cbn in Hm. rewrite Hs, Hr in Hm. cbn in Hm.
      by apply andb_prop in Hm as [Hm _].
    + intros Hs Hr. apply Forall_forall. intros row [_ Hm]%Hrows.
      cbn in Hm. rewrite Hs, Hr in Hm. cbn in Hm.
      by apply andb_prop in Hm as [Hm _].
Qed.

Lemma orders_query_by_direction_witness :
  (∃ rest,
     last (direction_run true true).2
     = Some (order_query sample_orders_args newest_first
               (OpOr [("CollectiveId", VNum 1); ("FromCollectiveId", VNum 1)]
                :: rest)))
  ∧ (∃ rest,
       last (direction_run true false).2
       = Some (order_query sample_orders_args newest_first
                 (Col "FromCollectiveId" (Is (VNum 1)) :: rest)))
  ∧ (∃ rest,
       last (direction_run false true).2
       = Some (order_query sample_orders_args newest_first
                 (Col "CollectiveId" (Is (VNum 1)) :: rest)))
  ∧ direction_run true false
    = (Ok (page_of (direction_run true false)), (direction_run true false).2)
  ∧ ∃ rows,
      page_of (direction_run true false) !! "rows" = Some (VArr (VObj <$> rows))
      ∧ length rows = 1%nat
      ∧ Forall (fun row =>
                  sql_eq (prop (VObj row) "FromCollectiveId") (VNum 1) = true)
               rows.
Proof.
  split_and!.
  - destruct (orders_query_by_direction (rt := ascii_strings) sample_db
                sample_account
                (set_direction sample_orders_args (Some true) (Some true)))
      as (Hissued & _).
    destruct (Hissued newest_first eq_refl eq_refl) as (rest & Hboth & _).
    exists rest. exact (Hboth eq_refl eq_refl).
  - destruct (orders_query_by_direction (rt := ascii_strings) sample_db
                sample_account
                (set_direction sample_orders_args (Some true) (Some false)))
      as (Hissued & _).
    destruct (Hissued newest_first eq_refl eq_refl) as (rest & _ & Hsent & _).
    exists rest. exact (Hsent eq_refl eq_refl).
  - destruct (orders_query_by_direction (rt := ascii_strings) sample_db
                sample_account
                (set_direction sample_orders_args (Some false) (Some true)))
      as (Hissued & _).
    destruct (Hissued newest_first eq_refl eq_refl) as (rest & _ & _ & Hrec).
    exists rest. exact (Hrec eq_refl eq_refl).
  - vm_compute. reflexivity.
  - destruct (orders_query_by_direction (rt := ascii_strings) sample_db
                sample_account
                (set_direction sample_orders_args (Some true) (Some false)))
      as (_ & _ & Hpage).
    destruct (Hpage (page_of (direction_run true false))
                (direction_run true false).2)
      as (options & rows & _ & Hrows & _ & Hsent & _).
    + vm_compute. reflexivity.
    + exists rows. split; [exact Hrows|]. split; [|exact (Hsent eq_refl eq_refl)].
      assert (VArr (VObj <$> rows)
              = VArr (rows_of (page_of (direction_run true false)))) as Heq.
      { unfold rows_of. by rewrite Hrows. }
      injection Heq as Heq. apply (f_equal length) in Heq.
      rewrite length_fmap in Heq. rewrite Heq. vm_compute. reflexivity.
Defined.

(** C2: with [sent] and [received] both false the orders query fails with
    NotFound, and the store has not been asked anything. *)
Theorem orders_neither_sent_nor_received {rt : StringPrototype} db collective
    args :
  sent args = Some false → received args = Some false →
  run (accountOrders_resolve collective args) db
  = (Throw (NotFound "At least one of `sent` or `received` needs to be true."),
     []).
Proof.
  intros Hs Hr. apply orders_no_direction; [by rewrite Hs|by rewrite Hr].
Qed.

Lemma orders_neither_sent_nor_received_witness :
  run (accountOrders_resolve (rt := ascii_strings) sample_account
         {| sent := Some false; received := Some false; limit := Some 100;
            offset := Some 0; status := None; tierSlug := Some "backer";
            orderBy := Some newest_first |}) sample_db
  = (Throw (NotFound "At least one of `sent` or `received` needs to be true."),
     []).
Proof.
  apply (orders_neither_sent_nor_received sample_db sample_account);
    reflexivity.
Defined.

(** C3, as the code has it: a call of the transactions or of the orders
    resolver that does not fail has asked the store once for its rows, and
    returns the object with exactly the properties [limit], [offset],
    [count] and [rows]: [limit] and [offset] are the arguments of the call,
    [count] and [rows] are those of the store's answer to that query. *)
Theorem resolvers_return_page {rt : StringPrototype} db collective :
  (∀ args p log,
     run (accountTransactions_resolve collective args) db = (Ok p, log) →
     ∃ options result,
       log = [TransactionFindAndCountAll options]
       ∧ findAndCountAll (Transactions db) options = Ok result
       ∧ store_page (tx_limit args) (tx_offset args) result p)
  ∧ (∀ args p log,
       run (accountOrders_resolve collective args) db = (Ok p, log) →
       ∃ options result,
         last log = Some (OrderFindAndCountAll options)
         ∧ findAndCountAll (Orders db) options = Ok result
         ∧ store_page (limit args) (offset args) result p).
Proof.
  split; intros args p log H.
  - destruct (transactions_success _ _ _ _ _ H)
      as (options & result & -> & _ & _ & Hfa & ->).
    exists options, result. split_and!; [done..|].
    by eapply store_page_of_result.
  - destruct (orders_success _ _ _ _ _ H)
      as (rest & order & result & tierlog & _ & -> & Hfa & -> & _).
    eexists _, result. split_and!; [by rewrite last_snoc|exact Hfa|].
    by eapply store_page_of_result.
Qed.

Lemma resolvers_return_page_witness :
  (sample_transactions_run
   = (Ok (page_of sample_transactions_run), sample_transactions_run.2)
   ∧ ∃ options result,
       sample_transactions_run.2 = [TransactionFindAndCountAll options]
       ∧ findAndCountAll (Transactions sample_db) options = Ok result
       ∧ store_page (Some 100) (Some 0) result
           (page_of sample_transactions_run))
  ∧ (sample_orders_run = (Ok (page_of sample_orders_run), sample_orders_run.2)
     ∧ ∃ options result,
         last sample_orders_run.2 = Some (OrderFindAndCountAll options)
         ∧ findAndCountAll (Orders sample_db) options = Ok result
         ∧ store_page (Some 100) (Some 0) result (page_of sample_orders_run)).
Proof.
  assert (sample_transactions_run
          = (Ok (page_of sample_transactions_run), sample_transactions_run.2))
    as Hr by (vm_compute; reflexivity).
  assert (sample_orders_run
          = (Ok (page_of sample_orders_run), sample_orders_run.2))
    as Hr' by (vm_compute; reflexivity).
  destruct (resolvers_return_page (rt := ascii_strings) sample_db
              sample_account) as [Htx Hord].
  split; (split; [assumption|]).
  - exact (Htx sample_transactions_args _ _ Hr).
  - exact (Hord sample_orders_args _ _ Hr').
Defined.

(** C3, as stated, fails: the page of a successful orders query has no
    property [totalCount] and no property [items]. *)
Lemma page_has_no_totalCount_items :
  sample_orders_run = (Ok (page_of sample_orders_run), sample_orders_run.2)
  ∧ page_of sample_orders_run !! "totalCount" = None
  ∧ page_of sample_orders_run !! "items" = None
  ∧ ¬ page_shape_totalCount_items (limit sample_orders_args)
        (offset sample_orders_args) (page_of sample_orders_run).
Proof.
  split_and!; try (vm_compute; reflexivity).
  intros [Hdom _].
  assert ("totalCount" ∈ dom (page_of sample_orders_run)) as Hin
    by (rewrite Hdom; set_solver).
  apply elem_of_dom in Hin as [v Hv]. vm_compute in Hv. discriminate.
Qed.

(** C4: for an activity of one of the three known types, the [data] of the
    sanitized activity holds exactly the fields of the type's list that the
    [data] of the activity has, with their values, and nothing else. *)
Theorem sanitizeActivity_known_type (activity : gmap string value) t :
  known_type t → activity !! "type" = Some (VStr t) →
  ∃ data,
    sanitizeActivity activity !! "data" = Some (VObj data)
    ∧ picked_exactly (allowlist t) (prop (VObj activity) "data") data.
Proof.
  intros _ Ht. rewrite sanitizeActivity_data, Ht.
  eexists. split; [done|]. apply pick_exact, allowlist_deep.
Qed.

Lemma sanitizeActivity_known_type_witness :
  ∃ data,
    sanitizeActivity sample_activity !! "data" = Some (VObj data)
    ∧ picked_exactly (allowlist "collective.transaction.created")
        (prop (VObj sample_activity) "data") data.
Proof.
  apply (sanitizeActivity_known_type sample_activity
           "collective.transaction.created").
  - left. reflexivity.
  - vm_compute. reflexivity.
Defined.

(** The data of the sample activity, sanitized: the e-mail address, the
    payment method and the user are gone. *)
Example sanitizeActivity_sample_data :
  sanitizeActivity sample_activity !! "data"
  = Some (VObj (obj
      [ ("fromCollective", VObj (obj
           [("type", VStr "USER"); ("name", VStr "Xavier")]));
        ("transaction", VObj (obj
           [("amount", VNum 500); ("currency", VStr "USD")])) ])).
Proof. vm_compute. reflexivity. Qed.

(** C5: for an activity whose type is none of the three known types, the
    [data] of the sanitized activity is the empty object. *)
Theorem sanitizeActivity_unknown_type (activity : gmap string value) :
  (∀ t, known_type t → activity !! "type" ≠ Some (VStr t)) →
  sanitizeActivity activity !! "data" = Some (VObj ∅).
Proof.
  intros Hun. rewrite sanitizeActivity_data.
  destruct (activity !! "type") as [v|] eqn:E; [|done].
  destruct v as [| | | |t| | |]; try done.
  unfold allowlist. unfold known_type in Hun.
  repeat (case_bool_decide; [by destruct (Hun t); [tauto|subst]|]).
  by rewrite pick_nil.
Qed.

Lemma sanitizeActivity_unknown_type_witness :
  sanitizeActivity sample_unknown_activity !! "data" = Some (VObj ∅).
Proof.
  apply (sanitizeActivity_unknown_type sample_unknown_activity).
  intros t [-> | [-> | ->]]; vm_compute; discriminate.
Defined.

(** C6: the sanitized activity has the property [data] and, of
    [createdAt], [id], [type] and [CollectiveId], those that the activity
    has, with the activity's values; it has no other property. *)
Theorem sanitizeActivity_top_level (activity : gmap string value) :
  dom (sanitizeActivity activity)
  = {["data"]} ∪ (dom activity ∩ {["createdAt"; "id"; "type"; "CollectiveId"]})
  ∧ dom (sanitizeActivity activity)
    ⊆ {["createdAt"; "id"; "type"; "CollectiveId"; "data"]}
  ∧ Forall (fun k => sanitizeActivity activity !! k = activity !! k)
           ["createdAt"; "id"; "type"; "CollectiveId"].
Proof.
  assert (dom (sanitizeActivity activity)
          = {["data"]}
            ∪ (dom activity ∩ {["createdAt"; "id"; "type"; "CollectiveId"]}))
    as Hdom.
  { apply set_eq. intros k. rewrite elem_of_dom.
    destruct (decide (k = "data")) as [->|Hne].
    - rewrite sanitizeActivity_data. split; [set_solver|eauto].
    - rewrite sanitizeActivity_other by done.
      rewrite elem_of_union, elem_of_intersection, elem_of_dom.
      unfold common_fields. case_bool_decide as Hk.
      + split; [intros ?; right; set_solver|].
        intros [?|[? _]]; [set_solver|done].
      + split; [by intros [? ?]|]. intros [?|[_ ?]]; set_solver. }
  split_and!; [done|rewrite Hdom; set_solver|].
  repeat constructor; by rewrite sanitizeActivity_other.
Qed.

(** The raw field [UserId] of the sample activity does not come through. *)
Example sanitizeActivity_sample_top_level :
  sanitizeActivity sample_activity !! "UserId" = None
  ∧ sanitizeActivity sample_activity !! "id" = Some (VNum 7).
Proof. split; vm_compute; reflexivity. Qed.

(** C7, as the code has it: an orders query with a tierSlug that is not
    empty and that, in lower case, is the slug of no tier of the account
    fails with NotFound; an empty tierSlug is ignored: the call makes no
    tier lookup and runs as the call without a tierSlug does. *)
Theorem orders_unknown_tierSlug {rt : StringPrototype} db collective args :
  (∀ s, tierSlug args = Some s → s ≠ "" →
     Forall (fun t =>
               sql_eq (prop (VObj t) "CollectiveId")
                 (prop (VObj collective) "id")
               && sql_eq (prop (VObj t) "slug") (VStr (toLowerCase s)) = false)
            (Tiers db) →
     ∃ message log,
       run (accountOrders_resolve collective args) db
       = (Throw (NotFound message), log))
  ∧ (tierSlug args = Some "" →
     run (accountOrders_resolve collective args) db
     = run (accountOrders_resolve collective (set_tierSlug args None)) db
     ∧ ∀ w, TierFindOne w
              ∉ (run (accountOrders_resolve collective args) db).2).
Proof.
  split.
  - intros s Hs Hne Hall.
    destruct (is_true (sent args) || is_true (received args)) eqn:Hd.
    + eexists _, _. apply orders_tier_not_found; [done| |].
      * rewrite Hs. simpl. by rewrite bool_decide_eq_false_2.
      * rewrite Hs. simpl. apply findOne_None.
        eapply Forall_impl; [exact Hall|]. intros t Ht.
        unfold matches. cbn. by rewrite andb_true_r.
    + apply orb_false_elim in Hd as [? ?]. eexists _, _.
      by apply orders_no_direction.
  - intros Hs. split.
    + rewrite !orders_table_run.
      unfold orders_table, orders_options, orders_where, tier_resolves,
        tier_filter, tier_log, direction_filter, status_filter.
      cbn [set_tierSlug sent received limit offset status tierSlug orderBy].
      by rewrite Hs.
    + intros w (s & Hs' & Hne & _)%orders_tier_queries. congruence.
Qed.

Lemma orders_unknown_tierSlug_witness :
  (∃ message log,
     run (accountOrders_resolve (rt := ascii_strings) sample_account
            (set_tierSlug sample_orders_args (Some "Sponsor"))) sample_db
     = (Throw (NotFound message), log))
  ∧ empty_tierSlug_run = sample_orders_run.
Proof.
  split.
  - destruct (orders_unknown_tierSlug (rt := ascii_strings) sample_db
                sample_account
                (set_tierSlug sample_orders_args (Some "Sponsor")))
      as [Hnf _].
    apply (Hnf "Sponsor").
    + reflexivity.
    + discriminate.
    + repeat constructor.
  - destruct (orders_unknown_tierSlug (rt := ascii_strings) sample_db
                sample_account
                (set_tierSlug sample_orders_args (Some "")))
      as [_ Hempty].
    destruct (Hempty eq_refl) as [Hrun _]. exact Hrun.
Defined.

(** C7, as stated, fails: the empty tierSlug is the slug of no tier, and
    the query goes through, without a tier lookup and without a tier
    filter. *)
Lemma empty_tierSlug_is_ignored :
  findOne (Tiers sample_db) (tier_where (rt := ascii_strings) sample_account "")
  = None
  ∧ empty_tierSlug_run
    = (Ok (page_of empty_tierSlug_run), empty_tierSlug_run.2)
  ∧ empty_tierSlug_run.2
    = [OrderFindAndCountAll
         {| fo_where := [OpOr [("CollectiveId", VNum 1);
                               ("FromCollectiveId", VNum 1)]];
            fo_limit := Some 100; fo_offset := Some 0;
            fo_order := ("createdAt", DESC) |}].
Proof. split_and!; vm_compute; reflexivity. Qed.

(** C8: creating a legal document whose [HostCollectiveId] and
    [CollectiveId] reference existing collective rows succeeds, and the
    document is then found by a query for these two ids; when either of the
    two is missing the creation fails with a validation error and the store
    is as before. *)
Theorem LegalDocument_create_contract db (legalDoc : gmap string value) :
  (models.references_collective db (prop (VObj legalDoc) "HostCollectiveId")
   = true →
   models.references_collective db (prop (VObj legalDoc) "CollectiveId")
   = true →
   ∃ db',
     models.LegalDocument_create legalDoc db = (Ok legalDoc, db')
     ∧ legalDoc ∈ models.LegalDocument_findAll
         [Col "HostCollectiveId" (Is (prop (VObj legalDoc) "HostCollectiveId"));
          Col "CollectiveId" (Is (prop (VObj legalDoc) "CollectiveId"))] db')
  ∧ (legalDoc !! "HostCollectiveId" = None ∨ legalDoc !! "CollectiveId" = None →
     models.LegalDocument_create legalDoc db = (Throw ValidationError, db)).
Proof.
  split.
  - intros Hh Hc. unfold models.LegalDocument_create. rewrite Hh, Hc.
    eexists. split; [done|].
    unfold models.LegalDocument_findAll. cbn [LegalDocuments].
    apply list_elem_of_filter. split; [|set_solver].
    unfold matches. cbn.
    apply references_collective_refl in Hh, Hc. simpl in Hh, Hc.
    by rewrite Hh, Hc.
  - unfold models.LegalDocument_create. simpl.
    intros [-> | ->]; simpl; rewrite references_collective_undefined;
      by rewrite ?andb_false_r.
Qed.

Lemma LegalDocument_create_contract_witness :
  (∃ db',
     models.LegalDocument_create sample_legalDoc sample_db
     = (Ok sample_legalDoc, db')
     ∧ sample_legalDoc ∈ models.LegalDocument_findAll
         [Col "HostCollectiveId" (Is (VNum 1)); Col "CollectiveId" (Is (VNum 2))]
         db')
  ∧ models.LegalDocument_create
      (obj [("year", VStr "2019"); ("CollectiveId", VNum 2)]) sample_db
    = (Throw ValidationError, sample_db).
Proof.
  split.
  - destruct (LegalDocument_create_contract sample_db sample_legalDoc)
      as [Hok _].
    apply Hok; reflexivity.
  - destruct (LegalDocument_create_contract sample_db
                (obj [("year", VStr "2019"); ("CollectiveId", VNum 2)]))
      as [_ Hfail].
    apply Hfail. left. reflexivity.
Defined.

(** C9: the tier lookup of an orders query asks for the lower-cased slug
    among the tiers whose [CollectiveId] is the account's id: no other tier
    query is issued, and that one is issued for every slug that is not empty
    (unless [sent] and [received] are both false); a tier filter of the
    orders query is the id of such a tier; when the tiers of that slug all
    belong to other collectives the call fails with NotFound; and two slugs
    with the same lower-case form (both empty or neither) give the same
    run. *)
Theorem orders_tier_lookup {rt : StringPrototype} db collective args :
  (∀ w, TierFindOne w ∈ (run (accountOrders_resolve collective args) db).2 →
     ∃ s, tierSlug args = Some s ∧ s ≠ "" ∧ w = tier_where collective s)
  ∧ (∀ s, is_true (sent args) || is_true (received args) = true →
       tierSlug args = Some s → s ≠ "" →
       TierFindOne
         [Col "CollectiveId" (Is (prop (VObj collective) "id"));
          Col "slug" (Is (VStr (toLowerCase s)))]
         ∈ (run (accountOrders_resolve collective args) db).2)
  ∧ (∀ p log options v,
       run (accountOrders_resolve collective args) db = (Ok p, log) →
       last log = Some (OrderFindAndCountAll options) →
       Col "TierId" (Is v) ∈ fo_where options →
       ∃ t, t ∈ Tiers db ∧ v = prop (VObj t) "id"
            ∧ sql_eq (prop (VObj t) "CollectiveId")
                (prop (VObj collective) "id") = true
            ∧ sql_eq (prop (VObj t) "slug")
                (VStr (toLowerCase (default "" (tierSlug args)))) = true)
  ∧ (∀ s, tierSlug args = Some s → s ≠ "" →
       Forall (fun t =>
                 sql_eq (prop (VObj t) "slug") (VStr (toLowerCase s)) = true →
                 sql_eq (prop (VObj t) "CollectiveId")
                   (prop (VObj collective) "id") = false) (Tiers db) →
       ∃ message log,
         run (accountOrders_resolve collective args) db
         = (Throw (NotFound message), log))
  ∧ (∀ s s', toLowerCase s = toLowerCase s' → (s = "" ↔ s' = "") →
       run (accountOrders_resolve collective (set_tierSlug args (Some s))) db
       = run (accountOrders_resolve collective (set_tierSlug args (Some s'))) db).
Proof.
  split_and!.
  - apply orders_tier_queries.
  - apply orders_tier_query_issued.
  - intros p log options v H Hlast Hin.
    destruct (orders_success _ _ _ _ _ H)
      as (rest & order & result & tierlog & _ & -> & _ & _ & _ & Htier & _).
    rewrite last_snoc in Hlast. injection Hlast as <-.
    cbn [fo_where] in Hin. apply elem_of_cons in Hin as [Hin|Hin].
    + by destruct (is_true (sent args)), (is_true (received args)).
    + by apply Htier.
  - intros s Hs Hne Hall.
    destruct (is_true (sent args) || is_true (received args)) eqn:Hd.
    + eexists _, _. apply orders_tier_not_found; [done| |].
      * rewrite Hs. simpl. by rewrite bool_decide_eq_false_2.
      * rewrite Hs. simpl. apply findOne_None.
        eapply Forall_impl; [exact Hall|]. intros t Ht.
        unfold matches. cbn. rewrite andb_true_r.
        destruct (sql_eq (default VUndefined (t !! "slug")) _) eqn:E.
        -- cbn in Ht. by rewrite (Ht E).
        -- by rewrite andb_false_r.
    + apply orb_false_elim in Hd as [? ?]. eexists _, _.
      by apply orders_no_direction.
  - apply orders_same_lower_case.
Qed.

Lemma orders_tier_lookup_witness :
  TierFindOne
    [Col "CollectiveId" (Is (VNum 1)); Col "slug" (Is (VStr "backer"))]
    ∈ (run (accountOrders_resolve (rt := ascii_strings) sample_account
              (set_tierSlug sample_orders_args (Some "BACKER"))) sample_db).2
  ∧ (∃ message log,
       run (accountOrders_resolve (rt := ascii_strings) sample_account
              (set_tierSlug sample_orders_args (Some "SPONSOR"))) sample_db
       = (Throw (NotFound message), log))
  ∧ run (accountOrders_resolve (rt := ascii_strings) sample_account
           (set_tierSlug sample_orders_args (Some "BACKER"))) sample_db
    = run (accountOrders_resolve (rt := ascii_strings) sample_account
             (set_tierSlug sample_orders_args (Some "backer"))) sample_db.
Proof.
  split_and!.
  - destruct (orders_tier_lookup (rt := ascii_strings) sample_db
                sample_account
                (set_tierSlug sample_orders_args (Some "BACKER")))
      as (_ & Hissued & _).
    apply (Hissued "BACKER"); [reflexivity|reflexivity|discriminate].
  - destruct (orders_tier_lookup (rt := ascii_strings) sample_db
                sample_account
                (set_tierSlug sample_orders_args (Some "SPONSOR")))
      as (_ & _ & _ & Hnf & _).
    apply (Hnf "SPONSOR"); [reflexivity|discriminate|].
    repeat constructor; vm_compute; congruence.
  - destruct (orders_tier_lookup (rt := ascii_strings) sample_db
                sample_account sample_orders_args)
      as (_ & _ & _ & _ & Hcase).
    apply Hcase; [reflexivity|]. split; discriminate.
Defined.

(** C10: for an account record without [updatedAt], or with [updatedAt]
    null, the resolver of [updatedAt] returns [createdAt]; a date in
    [updatedAt] is returned as it is. *)
Theorem updatedAt_falls_back_to_createdAt (collective : gmap string value) :
  (collective !! "updatedAt" = None →
     updatedAt_resolve collective = prop (VObj collective) "createdAt")
  ∧ (collective !! "updatedAt" = Some VNull →
       updatedAt_resolve collective = prop (VObj collective) "createdAt")
  ∧ (∀ t, collective !! "updatedAt" = Some (VDate t) →
       updatedAt_resolve collective = VDate t).
Proof.
  unfold updatedAt_resolve, js_or. simpl.
  split_and!; [intros ->|intros ->|intros t ->]; done.
Qed.

Lemma updatedAt_falls_back_to_createdAt_witness :
  updatedAt_resolve (obj [("id", VNum 1); ("createdAt", VDate 50)]) = VDate 50
  ∧ updatedAt_resolve sample_account = VDate 50
  ∧ updatedAt_resolve
      (obj [("id", VNum 1); ("createdAt", VDate 50); ("updatedAt", VDate 70)])
    = VDate 70.
Proof.
  split_and!.
  - destruct (updatedAt_falls_back_to_createdAt
                (obj [("id", VNum 1); ("createdAt", VDate 50)]))
      as (Habsent & _ & _).
    rewrite Habsent; reflexivity.
  - destruct (updatedAt_falls_back_to_createdAt sample_account)
      as (_ & Hnull & _).
    rewrite Hnull; reflexivity.
  - destruct (updatedAt_falls_back_to_createdAt
                (obj [("id", VNum 1); ("createdAt", VDate 50);
                      ("updatedAt", VDate 70)]))
      as (_ & _ & Hdate).
    apply Hdate. reflexivity.
Defined.

(** * Further properties *)

(** X1: an order query of the orders resolver carries the [limit], the
    [offset] and the order of the call, and its where object is the
    condition on the direction, then the condition on the status when a
    status list that is not empty is given, then the condition on the tier
    when a tier slug that is not empty is given, and nothing else; the
    condition on the tier is there for every slug that is not empty, with
    the id of the tier that the lookup of the lower-cased slug found. *)
Theorem orders_query_options {rt : StringPrototype} db collective args
    options :
  OrderFindAndCountAll options
    ∈ (run (accountOrders_resolve collective args) db).2 →
  ∃ o tier,
    orderBy args = Some o
    ∧ fo_limit options = limit args
    ∧ fo_offset options = offset args
    ∧ fo_order options = (field o, direction_ o)
    ∧ fo_where options
      = direction_filter collective args :: status_filter args ++ tier
    ∧ (∀ s, tierSlug args = Some s → s ≠ "" →
         ∃ t, findOne (Tiers db)
                [Col "CollectiveId" (Is (prop (VObj collective) "id"));
                 Col "slug" (Is (VStr (toLowerCase s)))] = Some t
              ∧ tier = [Col "TierId" (Is (prop (VObj t) "id"))])
    ∧ (tierSlug args = None ∨ tierSlug args = Some "" → tier = []).
Proof.
  rewrite orders_table_run. unfold orders_table, tier_log.
  destruct (is_true (sent args) || is_true (received args)); cbn [negb];
    [|by intros ?%elem_of_nil].
  destruct (tier_resolves db collective args) eqn:Ht; cbn [negb].
  - destruct (orderBy args) as [o|]; cbn [snd].
    + intros H. exists o, (tier_filter db collective args).
      assert (options = orders_options db collective args o) as ->.
      { destruct (non_empty (tierSlug args)); set_solver. }
      split_and!; try done.
      * intros s Hs Hne.
        assert (non_empty (Some s) = true) as Hn.
        { simpl. by rewrite bool_decide_eq_false_2. }
        unfold tier_resolves, tier_filter, tier_where in *.
        rewrite Hs, Hn in *.
        change (default "" (Some s)) with s in *. cbn [negb orb] in Ht.
        apply bool_decide_eq_true in Ht as [t Ht]. exists t.
        by rewrite Ht.
      * unfold tier_filter. by intros [-> | ->].
    + destruct (non_empty (tierSlug args)); set_solver.
  - destruct (non_empty (tierSlug args)); set_solver.
Qed.

Lemma orders_query_options_witness :
  ∃ o tier,
    orderBy paid_backer_args = Some o
    ∧ fo_where (orders_options (rt := ascii_strings) sample_db sample_account
                  paid_backer_args newest_first)
      = direction_filter sample_account paid_backer_args
        :: status_filter paid_backer_args ++ tier
    ∧ tier = [Col "TierId" (Is (VNum 5))].
Proof.
  destruct (orders_query_options (rt := ascii_strings) sample_db
              sample_account paid_backer_args
              (orders_options (rt := ascii_strings) sample_db sample_account
                 paid_backer_args newest_first))
    as (o & tier & Ho & _ & _ & _ & Hw & Htier & _).
  - vm_compute. right. left.
  - exists o, tier. split_and!; [exact Ho|exact Hw|].
    destruct (Htier "Backer" eq_refl) as (t & Ht & ->); [discriminate|].
    vm_compute in Ht. injection Ht as <-. reflexivity.
Defined.

(** X2: when a status list that is not empty is given, every order of the
    page has one of its statuses; the empty status list is no filter at all:
    the call runs as without a status list. *)
Theorem orders_status_filter {rt : StringPrototype} db collective args :
  (∀ p log s ss,
     run (accountOrders_resolve collective args) db = (Ok p, log) →
     status args = Some (s :: ss) →
     Forall (fun v => ∃ x, x ∈ s :: ss ∧ prop v "status" = VStr x)
            (rows_of p))
  ∧ (status args = Some [] →
     run (accountOrders_resolve collective args) db
     = run (accountOrders_resolve collective (set_status args None)) db).
Proof.
  split.
  - intros p log s ss H Hst.
    destruct (orders_page _ _ _ _ _ H)
      as (o & rows & _ & _ & _ & _ & _ & -> & Hrows).
    apply Forall_forall. intros v (row & -> & Hrow)%list_elem_of_fmap.
    apply Hrows in Hrow as [_ Hm]. unfold orders_where in Hm.
    rewrite matches_cons, matches_app in Hm.
    apply andb_prop in Hm as [_ [Hm _]%andb_prop].
    unfold status_filter in Hm. rewrite Hst in Hm.
    unfold matches in Hm. cbn [forallb entry_holds cond_holds] in Hm.
    rewrite andb_true_r in Hm.
    apply existsb_exists in Hm as (w & Hw & Heq).
    apply list_elem_of_In, list_elem_of_fmap in Hw as (x & -> & Hx).
    exists x. split; [done|]. by apply sql_eq_VStr.
  - intros Hst. rewrite !orders_table_run.
    unfold orders_table, orders_options, orders_where, status_filter,
      tier_resolves, tier_filter, tier_log, direction_filter.
    cbn [set_status sent received limit offset status tierSlug orderBy].
    by rewrite Hst.
Qed.

Lemma orders_status_filter_witness :
  paid_backer_run = (Ok (page_of paid_backer_run), paid_backer_run.2)
  ∧ Forall (fun v => ∃ x, x ∈ ["ACTIVE"; "PAID"] ∧ prop v "status" = VStr x)
           (rows_of (page_of paid_backer_run))
  ∧ run (accountOrders_resolve (rt := ascii_strings) sample_account
           (set_status sample_orders_args (Some []))) sample_db
    = run (accountOrders_resolve (rt := ascii_strings) sample_account
             (set_status (set_status sample_orders_args (Some [])) None))
          sample_db.
Proof.
  assert (paid_backer_run = (Ok (page_of paid_backer_run), paid_backer_run.2))
    as Hr by (vm_compute; reflexivity).
  split; [exact Hr|]. split.
  - destruct (orders_status_filter (rt := ascii_strings) sample_db sample_account paid_backer_args)
      as [Hrows _].
    exact (Hrows _ _ "ACTIVE" ["PAID"] Hr eq_refl).
  - destruct (orders_status_filter (rt := ascii_strings) sample_db sample_account
                (set_status sample_orders_args (Some []))) as [_ Hempty].
    exact (Hempty eq_refl).
Defined.

(** X3: when a tier slug that is not empty is given and the call succeeds,
    the slug has resolved to a tier and every order of the page has the id
    of that tier as its [TierId]. *)
Theorem orders_tier_filter {rt : StringPrototype} db collective args p log s :
  run (accountOrders_resolve collective args) db = (Ok p, log) →
  tierSlug args = Some s → s ≠ "" →
  ∃ t, findOne (Tiers db) (tier_where collective s) = Some t
       ∧ Forall (fun v => sql_eq (prop v "TierId") (prop (VObj t) "id") = true)
                (rows_of p).
Proof.
  intros H Hs Hne.
  destruct (orders_page _ _ _ _ _ H)
    as (o & rows & _ & _ & Ht & _ & _ & -> & Hrows).
  assert (non_empty (Some s) = true) as Hn.
  { simpl. by rewrite bool_decide_eq_false_2. }
  unfold tier_resolves in Ht. rewrite Hs, Hn in Ht.
  change (default "" (Some s)) with s in Ht. cbn [negb orb] in Ht.
  apply bool_decide_eq_true in Ht as [t Ht]. exists t. split; [done|].
  apply Forall_forall. intros v (row & -> & Hrow)%list_elem_of_fmap.
  apply Hrows in Hrow as [_ Hm]. unfold orders_where in Hm.
  rewrite matches_cons, matches_app in Hm.
  apply andb_prop in Hm as [_ [_ Hm]%andb_prop].
  unfold tier_filter in Hm. rewrite Hs, Hn in Hm.
  change (default "" (Some s)) with s in Hm. rewrite Ht in Hm.
  unfold matches in Hm. cbn [forallb entry_holds cond_holds] in Hm.
  by rewrite andb_true_r in Hm.
Qed.

Lemma orders_tier_filter_witness :
  paid_backer_run = (Ok (page_of paid_backer_run), paid_backer_run.2)
  ∧ ∃ t, findOne (Tiers sample_db) (tier_where (rt := ascii_strings) sample_account "Backer")
         = Some t
         ∧ Forall (fun v =>
                     sql_eq (prop v "TierId") (prop (VObj t) "id") = true)
                  (rows_of (page_of paid_backer_run)).
Proof.
  assert (paid_backer_run = (Ok (page_of paid_backer_run), paid_backer_run.2))
    as Hr by (vm_compute; reflexivity).
  split; [exact Hr|].
  apply (orders_tier_filter (rt := ascii_strings) sample_db sample_account paid_backer_args
           _ _ "Backer" Hr); [reflexivity|discriminate].
Defined.

(** X4: one call of the orders resolver issues at most one tier lookup,
    then at most one order query, and nothing else: no query on
    transactions, no second lookup. *)
Theorem orders_log_shape {rt : StringPrototype} db collective args :
  ∃ lookups queries,
    (run (accountOrders_resolve collective args) db).2 = lookups ++ queries
    ∧ (lookups = []
       ∨ lookups
         = [TierFindOne (tier_where collective (default "" (tierSlug args)))])
    ∧ (queries = [] ∨ ∃ options, queries = [OrderFindAndCountAll options]).
Proof.
  rewrite orders_table_run. unfold orders_table, tier_log.
  destruct (is_true (sent args) || is_true (received args)); cbn [negb snd].
  - destruct (tier_resolves db collective args); cbn [negb snd].
    + destruct (orderBy args) as [o|]; cbn [snd].
      * eexists _, _. split; [done|].
        split; [destruct (non_empty (tierSlug args)); eauto|eauto].
      * eexists _, []. rewrite app_nil_r. split; [done|].
        split; [destruct (non_empty (tierSlug args)); eauto|eauto].
    + eexists _, []. rewrite app_nil_r. split; [done|].
      split; [destruct (non_empty (tierSlug args)); eauto|eauto].
  - exists [], []. eauto.
Qed.

(** X5: the orders resolver throws NotFound in two cases only, each with
    its own message: when neither [sent] nor [received] is true, and when a
    direction is asked for but the tier slug, not empty, is the slug of no
    tier of the account. *)
Theorem orders_not_found {rt : StringPrototype} db collective args message :
  (run (accountOrders_resolve collective args) db).1 = Throw (NotFound message)
  ↔ (message = "At least one of `sent` or `received` needs to be true."
     ∧ is_true (sent args) = false ∧ is_true (received args) = false)
    ∨ (message = "TierSlug Not Found"
       ∧ is_true (sent args) || is_true (received args) = true
       ∧ ∃ s, tierSlug args = Some s ∧ s ≠ ""
              ∧ findOne (Tiers db) (tier_where collective s) = None).
Proof.
  rewrite orders_table_run. unfold orders_table.
  pose proof (tier_unresolved db collective args) as Hu.
  destruct (is_true (sent args) || is_true (received args)) eqn:Hd;
    cbn [negb fst].
  - destruct (tier_resolves db collective args); cbn [negb fst].
    + split.
      * destruct (orderBy args); cbn [fst]; [|done].
        destruct (findAndCountAll _ _) as [?|e] eqn:Hfa; [done|].
        by apply findAndCountAll_throws in Hfa as ->.
      * intros [(_ & Hs & Hr)|(_ & _ & Hex)].
        -- by rewrite Hs, Hr in Hd.
        -- by apply Hu in Hex.
    + split.
      * intros [= <-]. right. split_and!; [done..|]. by apply Hu.
      * intros [(_ & Hs & Hr)|(-> & _)]; [by rewrite Hs, Hr in Hd|done].
  - apply orb_false_elim in Hd as [Hs Hr]. split.
    + intros [= <-]. by left.
    + intros [(-> & _)|(_ & ? & _)]; done.
Qed.

Lemma orders_not_found_witness :
  (run (accountOrders_resolve (rt := ascii_strings) sample_account
          (set_tierSlug sample_orders_args (Some "Sponsor"))) sample_db).1
  = Throw (NotFound "TierSlug Not Found").
Proof.
  apply (orders_not_found (rt := ascii_strings) sample_db sample_account).
  right. split_and!; [reflexivity|reflexivity|].
  exists "Sponsor". split_and!; [reflexivity|discriminate|reflexivity].
Defined.

(** X6: when the order argument is null the orders resolver never reaches
    the order query, and it throws a type error exactly when a direction is
    asked for and the tier slug, if any, resolves. *)
Theorem orders_without_order {rt : StringPrototype} db collective args :
  orderBy args = None →
  (∀ options,
     OrderFindAndCountAll options
       ∉ (run (accountOrders_resolve collective args) db).2)
  ∧ ((run (accountOrders_resolve collective args) db).1 = Throw TypeError
     ↔ is_true (sent args) || is_true (received args) = true
       ∧ tier_resolves db collective args = true).
Proof.
  intros Ho. rewrite orders_table_run. unfold orders_table, tier_log.
  rewrite Ho.
  destruct (is_true (sent args) || is_true (received args)); cbn [negb].
  - destruct (tier_resolves db collective args); cbn [negb fst snd].
    + split; [|done]. intros options.
      destruct (non_empty (tierSlug args)); set_solver.
    + split; [|split; [done|by intros [_ ?]]]. intros options.
      destruct (non_empty (tierSlug args)); set_solver.
  - split; [set_solver|]. split; [done|by intros [? _]].
Qed.

Lemma orders_without_order_witness :
  (run (accountOrders_resolve (rt := ascii_strings) sample_account
          {| sent := Some true; received := None; limit := Some 10;
             offset := Some 0; status := None; tierSlug := Some "backer";
             orderBy := None |}) sample_db)
  = (Throw TypeError, [TierFindOne (tier_where (rt := ascii_strings) sample_account "backer")]).
Proof.
  destruct (orders_without_order (rt := ascii_strings) sample_db sample_account
              {| sent := Some true; received := None; limit := Some 10;
                 offset := Some 0; status := None; tierSlug := Some "backer";
                 orderBy := None |} eq_refl) as [_ [_ Hthrow]].
  apply injective_projections.
  - apply Hthrow. split; vm_compute; reflexivity.
  - vm_compute. reflexivity.
Defined.

(** X7: a call of the orders resolver succeeds exactly when a direction is
    asked for, the tier slug, if any, resolves, the order argument is
    there, and neither [limit] nor [offset] is negative. *)
Theorem orders_succeeds {rt : StringPrototype} db collective args :
  (∃ p, (run (accountOrders_resolve collective args) db).1 = Ok p)
  ↔ is_true (sent args) || is_true (received args) = true
    ∧ tier_resolves db collective args = true
    ∧ is_Some (orderBy args)
    ∧ 0 ≤ default 0 (limit args) ∧ 0 ≤ default 0 (offset args).
Proof.
  rewrite orders_table_run. unfold orders_table.
  destruct (is_true (sent args) || is_true (received args)); cbn [negb fst];
    [|split; [by intros [? ?]|by intros [? _]]].
  destruct (tier_resolves db collective args); cbn [negb fst];
    [|split; [by intros [? ?]|by intros (_ & ? & _)]].
  destruct (orderBy args) as [o|]; cbn [fst];
    [|split; [by intros [? ?]|by intros (_ & _ & [? ?] & _)]].
  pose proof (findAndCountAll_window (Orders db)
                (orders_options db collective args o)) as Hw.
  unfold window_ok in Hw. rewrite bool_decide_eq_true in Hw.
  cbn [orders_options fo_limit fo_offset] in Hw.
  split.
  - intros [p Hp].
    destruct (findAndCountAll _ _) as [result|] eqn:E; [|done].
    destruct Hw as [Hw _]. destruct Hw as [Hl Ho]; [eauto|].
    split_and!; eauto.
  - intros (_ & _ & _ & Hl & Ho).
    destruct Hw as [_ Hw]. destruct (Hw (conj Hl Ho)) as [result ->]. eauto.
Qed.

Lemma orders_succeeds_witness :
  ∃ p, (run (accountOrders_resolve (rt := ascii_strings) sample_account paid_backer_args)
          sample_db).1 = Ok p.
Proof.
  apply (orders_succeeds (rt := ascii_strings) sample_db sample_account paid_backer_args).
  split_and!; [reflexivity|reflexivity|eexists; reflexivity|done|done].
Defined.

(** ** Without a limit *)

Lemma orders_page_unlimited {rt : StringPrototype} db collective args p log :
  run (accountOrders_resolve collective args) db = (Ok p, log) →
  limit args = None → offset args = None →
  ∃ rows,
    rows_of p = VObj <$> rows
    ∧ p !! "count" = Some (VNum (Z.of_nat (length rows)))
    ∧ ∀ row, row ∈ rows
        ↔ row ∈ Orders db ∧ matches (orders_where db collective args) row = true.
Proof.
  rewrite orders_table_run. unfold orders_table.
  destruct (is_true (sent args) || is_true (received args)); [|done].
  destruct (tier_resolves db collective args); [|done]. cbn [negb].
  destruct (orderBy args) as [o|]; [|done].
  destruct (findAndCountAll _ _) as [result|] eqn:Hfa; [|done].
  intros [= <- <-] Hl Ho.
  destruct (findAndCountAll_unlimited (Orders db)
              (orders_options db collective args o) result Hl Ho Hfa)
    as (rows & -> & Hrows).
  exists rows. split_and!.
  - apply rows_of_page.
  - apply page_lookup_result. by rewrite lookup_insert_eq.
  - exact Hrows.
Qed.

(** X8: without [limit] and [offset], the page of the orders resolver
    holds every order of the store that satisfies the conditions of the
    query, and only those, and [count] is the number of its rows. *)
Theorem orders_unlimited_complete {rt : StringPrototype} db collective args p log :
  run (accountOrders_resolve collective args) db = (Ok p, log) →
  limit args = None → offset args = None →
  p !! "count" = Some (VNum (Z.of_nat (length (rows_of p))))
  ∧ ∀ v, v ∈ rows_of p
      ↔ ∃ row, v = VObj row ∧ row ∈ Orders db
               ∧ entry_holds row (direction_filter collective args) = true
               ∧ matches (status_filter args) row = true
               ∧ matches (tier_filter db collective args) row = true.
Proof.
  intros H Hl Ho.
  destruct (orders_page_unlimited _ _ _ _ _ H Hl Ho)
    as (rows & -> & Hc & Hrows).
  split; [by rewrite length_fmap|].
  intros v. rewrite list_elem_of_fmap. split.
  - intros (row & -> & Hrow). exists row. split; [done|].
    apply Hrows in Hrow as [Hin Hm]. unfold orders_where in Hm.
    rewrite matches_cons, matches_app in Hm.
    apply andb_prop in Hm as [? [? ?]%andb_prop]. done.
  - intros (row & -> & Hin & Hd & Hs & Ht). exists row. split; [done|].
    apply Hrows. split; [done|]. unfold orders_where.
    by rewrite matches_cons, matches_app, Hd, Hs, Ht.
Qed.

Lemma orders_unlimited_complete_witness :
  unlimited_run true false
  = (Ok (page_of (unlimited_run true false)), (unlimited_run true false).2)
  ∧ page_of (unlimited_run true false) !! "count" = Some (VNum 1).
Proof.
  assert (unlimited_run true false
          = (Ok (page_of (unlimited_run true false)),
             (unlimited_run true false).2)) as Hr
    by (vm_compute; reflexivity).
  split; [exact Hr|].
  destruct (orders_unlimited_complete (rt := ascii_strings) sample_db sample_account
              (set_direction unlimited_args (Some true) (Some false))
              _ _ Hr eq_refl eq_refl) as [Hc _].
  rewrite Hc. vm_compute. reflexivity.
Defined.

(** X9: without [limit] and [offset], the orders that a call with [sent]
    and [received] returns are those that the call with [sent] only returns
    together with those that the call with [received] only returns, the
    other arguments being the same. *)
Theorem orders_both_is_union {rt : StringPrototype} db collective args pb ps pr lb ls lr :
  limit args = None → offset args = None →
  run (accountOrders_resolve collective
         (set_direction args (Some true) (Some true))) db = (Ok pb, lb) →
  run (accountOrders_resolve collective
         (set_direction args (Some true) (Some false))) db = (Ok ps, ls) →
  run (accountOrders_resolve collective
         (set_direction args (Some false) (Some true))) db = (Ok pr, lr) →
  ∀ v, v ∈ rows_of pb ↔ v ∈ rows_of ps ∨ v ∈ rows_of pr.
Proof.
  intros Hl Ho Hb Hs Hr v.
  destruct (orders_unlimited_complete _ _ _ _ _ Hb Hl Ho) as [_ Eb].
  destruct (orders_unlimited_complete _ _ _ _ _ Hs Hl Ho) as [_ Es].
  destruct (orders_unlimited_complete _ _ _ _ _ Hr Hl Ho) as [_ Er].
  rewrite Eb, Es, Er. clear.
  unfold direction_filter, status_filter, tier_filter, tier_where.
  cbn [set_direction sent received limit offset status tierSlug orderBy
       is_true from_option id andb entry_holds cond_holds existsb].
  split.
  - intros (row & -> & Hin & Hd & Hst & Ht).
    rewrite orb_false_r in Hd. apply orb_prop in Hd as [Hd|Hd].
    + right. exists row. done.
    + left. exists row. done.
  - intros [(row & -> & Hin & Hd & Hst & Ht)|(row & -> & Hin & Hd & Hst & Ht)];
      exists row; split_and!; try done; rewrite Hd; by rewrite ?orb_true_r.
Qed.

Lemma orders_both_is_union_witness :
  VObj (obj [("id", VNum 11); ("CollectiveId", VNum 3);
             ("FromCollectiveId", VNum 1); ("status", VStr "PAID");
             ("createdAt", VDate 200)])
    ∈ rows_of (page_of (unlimited_run true true))
  ↔ VObj (obj [("id", VNum 11); ("CollectiveId", VNum 3);
               ("FromCollectiveId", VNum 1); ("status", VStr "PAID");
               ("createdAt", VDate 200)])
      ∈ rows_of (page_of (unlimited_run true false))
    ∨ VObj (obj [("id", VNum 11); ("CollectiveId", VNum 3);
                 ("FromCollectiveId", VNum 1); ("status", VStr "PAID");
                 ("createdAt", VDate 200)])
        ∈ rows_of (page_of (unlimited_run false true)).
Proof.
  apply (orders_both_is_union (rt := ascii_strings) sample_db sample_account unlimited_args
           _ _ _ (unlimited_run true true).2 (unlimited_run true false).2
           (unlimited_run false true).2);
    vm_compute; reflexivity.
Defined.

(** ** The transactions resolver *)

(** X10: the transactions resolver issues exactly one query when the order
    argument is there, and none when it is null: a query on transactions
    whose [CollectiveId] is the account's id, of the type of the call when
    one is given, with the [limit], the [offset] and the order of the call;
    the transactions of the page it returns are of that account and of that
    type. *)
Theorem transactions_query db collective args :
  (run (accountTransactions_resolve collective args) db).2
  = match tx_orderBy args with
    | Some o =>
        [TransactionFindAndCountAll
           {| fo_where :=
                Col "CollectiveId" (Is (prop (VObj collective) "id"))
                :: match tx_type args with
                   | Some t =>
                       if bool_decide (t = "") then []
                       else [Col "type" (Is (VStr t))]
                   | None => []
                   end;
              fo_limit := tx_limit args;
              fo_offset := tx_offset args;
              fo_order := (field o, direction_ o) |}]
    | None => []
    end
  ∧ (∀ p log,
       run (accountTransactions_resolve collective args) db = (Ok p, log) →
       Forall (fun v =>
                 sql_eq (prop v "CollectiveId") (prop (VObj collective) "id")
                 = true
                 ∧ ∀ t, tx_type args = Some t → t ≠ "" →
                        prop v "type" = VStr t)
              (rows_of p)).
Proof.
  rewrite transactions_table_run. split.
  - destruct (tx_orderBy args) as [o|]; [|done]. cbn [snd].
    unfold transactions_options, transactions_where.
    destruct (tx_type args) as [t|]; [|done]. simpl.
    by destruct (bool_decide (t = "")).
  - intros p log H. destruct (tx_orderBy args) as [o|]; [|done].
    destruct (findAndCountAll _ _) as [result|] eqn:Hfa; [|done].
    injection H as <- <-.
    destruct (findAndCountAll_Ok _ _ _ Hfa) as (rows & -> & Hrows).
    rewrite rows_of_page. apply Forall_forall.
    intros v (row & -> & Hrow)%list_elem_of_fmap.
    apply Hrows in Hrow as [_ Hm].
    cbn [transactions_options fo_where] in Hm. unfold transactions_where in Hm.
    rewrite matches_cons in Hm. apply andb_prop in Hm as [Hc Hm].
    split; [exact Hc|]. intros t Ht Hne. rewrite Ht in Hm.
    cbn [non_empty from_option id] in Hm.
    rewrite (bool_decide_eq_false_2 (t = "")) in Hm by done.
    cbn [negb] in Hm. unfold matches in Hm.
    cbn [forallb entry_holds cond_holds] in Hm. rewrite andb_true_r in Hm.
    by apply sql_eq_VStr.
Qed.

Lemma transactions_query_witness :
  sample_transactions_run
  = (Ok (page_of sample_transactions_run), sample_transactions_run.2)
  ∧ length (rows_of (page_of sample_transactions_run)) = 1%nat
  ∧ Forall (fun v =>
              sql_eq (prop v "CollectiveId") (VNum 1) = true
              ∧ ∀ t, Some "CREDIT" = Some t → t ≠ "" → prop v "type" = VStr t)
           (rows_of (page_of sample_transactions_run)).
Proof.
  assert (sample_transactions_run
          = (Ok (page_of sample_transactions_run), sample_transactions_run.2))
    as Hr by (vm_compute; reflexivity).
  split; [exact Hr|]. split; [vm_compute; reflexivity|].
  destruct (transactions_query sample_db sample_account
              sample_transactions_args) as [_ Hrows].
  exact (Hrows _ _ Hr).
Defined.

(** X11: the transactions resolver never throws NotFound; it throws a type
    error, before any query, exactly when the order argument is null; and
    it succeeds exactly when the order argument is there and neither
    [limit] nor [offset] is negative. *)
Theorem transactions_outcomes db collective args :
  (∀ message,
     (run (accountTransactions_resolve collective args) db).1
     ≠ Throw (NotFound message))
  ∧ (run (accountTransactions_resolve collective args) db
     = (Throw TypeError, [])
     ↔ tx_orderBy args = None)
  ∧ ((∃ p, (run (accountTransactions_resolve collective args) db).1 = Ok p)
     ↔ is_Some (tx_orderBy args)
       ∧ 0 ≤ default 0 (tx_limit args) ∧ 0 ≤ default 0 (tx_offset args)).
Proof.
  rewrite transactions_table_run.
  destruct (tx_orderBy args) as [o|]; cbn [fst].
  - pose proof (findAndCountAll_window (Transactions db)
                  (transactions_options collective args o)) as Hw.
    unfold window_ok in Hw. rewrite bool_decide_eq_true in Hw.
    cbn [transactions_options fo_limit fo_offset] in Hw.
    split_and!.
    + intros message.
      destruct (findAndCountAll _ _) as [?|e] eqn:Hfa; [done|].
      by apply findAndCountAll_throws in Hfa as ->.
    + split; [|done]. by intros [= _ ?].
    + split.
      * intros [p Hp].
        destruct (findAndCountAll _ _) as [result|] eqn:E; [|done].
        destruct Hw as [Hw _]. destruct Hw as [Hl Ho]; [eauto|].
        split_and!; eauto.
      * intros (_ & Hl & Ho). destruct Hw as [_ Hw].
        destruct (Hw (conj Hl Ho)) as [result ->]. eauto.
  - split_and!; [done|done|].
    split; [by intros [? ?]|by intros ([? ?] & _)].
Qed.

Lemma transactions_outcomes_witness :
  run (accountTransactions_resolve sample_account
         {| tx_type := None; tx_limit := Some 100; tx_offset := Some 0;
            tx_orderBy := None |}) sample_db
  = (Throw TypeError, [])
  ∧ ∃ p, sample_transactions_run.1 = Ok p.
Proof.
  split.
  - apply (transactions_outcomes sample_db sample_account
             {| tx_type := None; tx_limit := Some 100; tx_offset := Some 0;
                tx_orderBy := None |}). reflexivity.
  - apply (transactions_outcomes sample_db sample_account
             sample_transactions_args).
    split_and!; [eexists; reflexivity|done|done].
Defined.

(** X12: without [limit] and [offset], the page of the transactions
    resolver holds every transaction of the store whose [CollectiveId] is
    the account's id (and whose type is that of the call, when one is
    given), and only those, and [count] is the number of its rows. *)
Theorem transactions_unlimited_complete db collective args p log :
  run (accountTransactions_resolve collective args) db = (Ok p, log) →
  tx_limit args = None → tx_offset args = None →
  p !! "count" = Some (VNum (Z.of_nat (length (rows_of p))))
  ∧ ∀ v, v ∈ rows_of p
      ↔ ∃ row, v = VObj row ∧ row ∈ Transactions db
               ∧ sql_eq (prop v "CollectiveId") (prop (VObj collective) "id")
                 = true
               ∧ (non_empty (tx_type args) = true →
                  prop v "type" = VStr (default "" (tx_type args))).
Proof.
  rewrite transactions_table_run.
  destruct (tx_orderBy args) as [o|]; [|done].
  destruct (findAndCountAll _ _) as [result|] eqn:Hfa; [|done].
  intros [= <- <-] Hl Ho.
  destruct (findAndCountAll_unlimited (Transactions db)
              (transactions_options collective args o) result Hl Ho Hfa)
    as (rows & -> & Hrows).
  rewrite rows_of_page. split.
  - rewrite length_fmap. apply page_lookup_result. by rewrite lookup_insert_eq.
  - intros v. rewrite list_elem_of_fmap. split.
    + intros (row & -> & Hrow). exists row. split; [done|].
      apply Hrows in Hrow as [Hin Hm].
      cbn [transactions_options fo_where] in Hm.
      unfold transactions_where in Hm. rewrite matches_cons in Hm.
      apply andb_prop in Hm as [Hc Hm]. split_and!; [done|exact Hc|].
      intros Hn. rewrite Hn in Hm. unfold matches in Hm.
      cbn [forallb entry_holds cond_holds] in Hm. rewrite andb_true_r in Hm.
      by apply sql_eq_VStr.
    + intros (row & -> & Hin & Hc & Ht). exists row. split; [done|].
      apply Hrows. split; [done|].
      cbn [transactions_options fo_where]. unfold transactions_where.
      rewrite matches_cons. apply andb_true_intro. split; [exact Hc|].
      destruct (non_empty (tx_type args)); [|done].
      unfold matches. cbn [forallb entry_holds cond_holds].
      rewrite andb_true_r, (Ht eq_refl). simpl.
      by apply bool_decide_eq_true_2.
Qed.

Lemma transactions_unlimited_complete_witness :
  run (accountTransactions_resolve sample_account
         {| tx_type := None; tx_limit := None; tx_offset := None;
            tx_orderBy := Some newest_first |}) sample_db
  = (Ok (page_of (run (accountTransactions_resolve sample_account
            {| tx_type := None; tx_limit := None; tx_offset := None;
               tx_orderBy := Some newest_first |}) sample_db)),
     [TransactionFindAndCountAll
        {| fo_where := [Col "CollectiveId" (Is (VNum 1))];
           fo_limit := None; fo_offset := None;
           fo_order := ("createdAt", DESC) |}])
  ∧ page_of (run (accountTransactions_resolve sample_account
            {| tx_type := None; tx_limit := None; tx_offset := None;
               tx_orderBy := Some newest_first |}) sample_db) !! "count"
    = Some (VNum 1).
Proof.
  assert (run (accountTransactions_resolve sample_account
         {| tx_type := None; tx_limit := None; tx_offset := None;
            tx_orderBy := Some newest_first |}) sample_db
  = (Ok (page_of (run (accountTransactions_resolve sample_account
            {| tx_type := None; tx_limit := None; tx_offset := None;
               tx_orderBy := Some newest_first |}) sample_db)),
     [TransactionFindAndCountAll
        {| fo_where := [Col "CollectiveId" (Is (VNum 1))];
           fo_limit := None; fo_offset := None;
           fo_order := ("createdAt", DESC) |}])) as Hr
    by (vm_compute; reflexivity).
  split; [exact Hr|].
  destruct (transactions_unlimited_complete sample_db sample_account _ _ _ Hr
              eq_refl eq_refl) as [Hc _].
  rewrite Hc. vm_compute. reflexivity.
Defined.

(** ** The updatedAt resolver *)

(** X13: the [updatedAt] resolver returns the [updatedAt] or the
    [createdAt] of the record, and for a record whose [createdAt] is a date
    it never returns null or undefined. *)
Theorem updatedAt_never_null (collective : gmap string value) :
  (updatedAt_resolve collective = prop (VObj collective) "updatedAt"
   ∨ updatedAt_resolve collective = prop (VObj collective) "createdAt")
  ∧ (∀ t, collective !! "createdAt" = Some (VDate t) →
       nullish (updatedAt_resolve collective) = false
       ∧ truthy (updatedAt_resolve collective) = true).
Proof.
  unfold updatedAt_resolve, js_or. split.
  - destruct (truthy _); eauto.
  - intros t Ht. destruct (truthy (prop (VObj collective) "updatedAt")) eqn:E.
    + split; [|done]. by destruct (prop (VObj collective) "updatedAt").
    + simpl. by rewrite Ht.
Qed.

Lemma updatedAt_never_null_witness :
  nullish (updatedAt_resolve sample_account) = false
  ∧ truthy (updatedAt_resolve sample_account) = true.
Proof.
  destruct (updatedAt_never_null sample_account) as [_ H].
  apply (H 50). reflexivity.
Defined.

(** ** The sanitizer, further *)

Section SanitizerFurther.
Import Lodash.

Lemma castPath_head s object : ∃ key path, castPath s object = key :: path.
Proof.
  unfold castPath. destruct (isKey s object); [eauto|].
  pose proof (stringToPath_nonempty s).
  destruct (stringToPath s); [done|eauto].
Qed.

Lemma pick_step_not_object v R p : (∀ m, v ≠ VObj m) → pick_step v R p = R.
Proof.
  intros Hv. unfold pick_step, hasIn.
  destruct (castPath_head p v) as (key & path & ->). simpl.
  assert (has_key v key = false) as ->
    by (destruct v as [| | | | | | |m]; try done; by destruct (Hv m)).
  by destruct (nullish v).
Qed.

Lemma pick_not_object v paths : (∀ m, v ≠ VObj m) → pick v paths = ∅.
Proof.
  intros Hv. unfold pick. destruct (nullish v); [done|].
  unfold basePick. generalize (∅ : gmap string value).
  induction paths as [|p paths IH]; intros R; simpl; [done|].
  by rewrite pick_step_not_object, IH.
Qed.

Lemma pick_idempotent object paths :
  Forall (λ p, deep_path p = true) paths →
  pick (VObj (pick object paths)) paths = pick object paths.
Proof.
  intros Hpaths.
  pose proof (pick_inv_pick object paths Hpaths) as [HL HG HD].
  pose proof (pick_inv_pick (VObj (pick object paths)) paths Hpaths)
    as [HL' HG' HD'].
  set (R := pick object paths) in *. set (R' := pick (VObj R) paths) in *.
  assert (∀ a b, has_dot a = false → lookup2 R' a b = lookup2 R a b) as H2.
  { intros a b Ha. rewrite HD' by done. unfold deep_entry. cbn zeta.
    rewrite hasPath2_lookup2, prop2_lookup2.
    destruct (lookup2 R a b) as [w|] eqn:E.
    - rewrite HD in E by done. unfold deep_entry in E. cbn zeta in E.
      destruct (bool_decide (_ ∈ list_to_set paths)) eqn:Hin; [|done].
      destruct (has_key object (a +:+ String "."%char b)) eqn:Hk; [done|].
      assert (has_key (VObj R) (a +:+ String "."%char b) = false) as ->.
      { simpl. rewrite HL by apply has_dot_dotted. unfold lit_entry.
        by rewrite Hk, andb_false_r. }
      by rewrite (bool_decide_eq_true_2 (is_Some (Some w))) by eauto.
    - rewrite (bool_decide_eq_false_2 (is_Some None)) by (by intros [? ?]).
      by rewrite andb_false_r. }
  apply map_eq. intros k. destruct (has_dot k) eqn:Hd.
  - rewrite HL' by done. unfold lit_entry. simpl.
    destruct (R !! k) as [v|] eqn:E; [|by rewrite andb_false_r].
    rewrite HL in E by done. unfold lit_entry in E.
    destruct (bool_decide (k ∈ list_to_set paths)); [|done].
    by rewrite (bool_decide_eq_true_2 (is_Some (Some v))) by eauto.
  - destruct (HG k Hd) as [HN|(m & Hm & Hne)],
             (HG' k Hd) as [HN'|(m' & Hm' & Hne')].
    + congruence.
    + apply map_choose in Hne' as (b & w & Hb).
      specialize (H2 k b Hd). unfold lookup2 in H2.
      rewrite Hm', HN in H2. congruence.
    + apply map_choose in Hne as (b & w & Hb).
      specialize (H2 k b Hd). unfold lookup2 in H2.
      rewrite Hm, HN' in H2. congruence.
    + rewrite Hm, Hm'. do 2 f_equal. apply map_eq. intros b.
      specialize (H2 k b Hd). unfold lookup2 in H2. by rewrite Hm, Hm' in H2.
Qed.

End SanitizerFurther.

(** X14: the sanitized activity always has a [data] that is an object, and
    that object is empty whenever the [data] of the activity is missing or
    is not an object, whatever the type of the activity. *)
Theorem sanitizeActivity_data_object (activity : gmap string value) :
  ∃ data,
    sanitizeActivity activity !! "data" = Some (VObj data)
    ∧ ((∀ m, activity !! "data" ≠ Some (VObj m)) → data = ∅).
Proof.
  rewrite sanitizeActivity_data. eexists. split; [done|].
  intros Hd.
  destruct (activity !! "type") as [[| | | |t| | |]|]; try done.
  apply pick_not_object. intros m Hm.
  simpl in Hm. destruct (activity !! "data") as [v|]; [|done].
  simpl in Hm. subst v. by destruct (Hd m).
Qed.

Lemma sanitizeActivity_data_object_witness :
  sanitizeActivity
    (obj [("type", VStr "collective.expense.created");
          ("data", VStr "not an object")]) !! "data"
  = Some (VObj ∅).
Proof.
  destruct (sanitizeActivity_data_object
              (obj [("type", VStr "collective.expense.created");
                    ("data", VStr "not an object")]))
    as (data & Hdata & Hempty).
  rewrite Hdata, Hempty; [reflexivity|].
  intros m. vm_compute. discriminate.
Defined.

(** X15: sanitizing is idempotent: a sanitized activity is sanitized to
    itself. *)
Theorem sanitizeActivity_idempotent (activity : gmap string value) :
  sanitizeActivity (sanitizeActivity activity) = sanitizeActivity activity.
Proof.
  apply map_eq. intros k. destruct (decide (k = "data")) as [->|Hk].
  - assert (sanitizeActivity activity !! "type" = activity !! "type") as Hty.
    { rewrite sanitizeActivity_other by done.
      by rewrite bool_decide_eq_true_2 by (unfold common_fields; set_solver). }
    pose proof (sanitizeActivity_data activity) as Hdata.
    rewrite (sanitizeActivity_data (sanitizeActivity activity)), Hty.
    unfold prop at 1. rewrite Hdata. cbn [from_option id].
    destruct (activity !! "type") as [[| | | |t| | |]|]; try done.
    by rewrite pick_idempotent by apply allowlist_deep.
  - rewrite (sanitizeActivity_other (sanitizeActivity activity)) by done.
    rewrite (sanitizeActivity_other activity) by done.
    by destruct (bool_decide (k ∈ common_fields)).
Qed.

(** X16: the sanitized activity depends on the [createdAt], [id], [type],
    [CollectiveId] and [data] of the activity only: two activities that
    agree on these five are sanitized to the same object. *)
Theorem sanitizeActivity_five_fields (a a' : gmap string value) :
  Forall (fun k => a !! k = a' !! k)
         ["createdAt"; "id"; "type"; "CollectiveId"; "data"] →
  sanitizeActivity a = sanitizeActivity a'.
Proof.
  intros H. rewrite !Forall_cons in H.
  destruct H as (Hc & Hi & Ht & Hci & Hd & _).
  apply map_eq. intros k. destruct (decide (k = "data")) as [->|Hk].
  - rewrite !sanitizeActivity_data. simpl. by rewrite Ht, Hd.
  - rewrite !sanitizeActivity_other by done. unfold common_fields.
    case_bool_decide as Hin; [|done].
    repeat (apply elem_of_cons in Hin as [->|Hin]; [done|]).
    by apply elem_of_nil in Hin.
Qed.

Lemma sanitizeActivity_five_fields_witness :
  sanitizeActivity sample_activity
  = sanitizeActivity (<["UserId" := VNum 99]> (<["secret" := VStr "s"]>
                        sample_activity)).
Proof.
  apply (sanitizeActivity_five_fields sample_activity).
  repeat constructor.
Defined.

(** ** Pages *)

Lemma window_length {A} n offset (rows w : list A) :
  window (Some n) offset rows = Some w → (length w ≤ Z.to_nat n)%nat.
Proof.
  unfold window. case_bool_decide; [|done]. intros [= <-].
  rewrite length_take. lia.
Qed.

Lemma findAndCountAll_count table options result :
  findAndCountAll table options = Ok result →
  ∃ rows,
    result = <["count" := VNum (Z.of_nat (length
                 (filter (fun row => matches (fo_where options) row = true) table)))]>
               (<["rows" := VArr (VObj <$> rows)]> ∅)
    ∧ (∀ row, row ∈ rows → row ∈ table ∧ matches (fo_where options) row = true)
    ∧ (∀ n, fo_limit options = Some n → (length rows ≤ Z.to_nat n)%nat).
Proof.
  unfold findAndCountAll.
  destruct (window _ _ _) as [rows|] eqn:E; [|done].
  intros [= <-]. exists rows. split_and!; [done| |].
  - intros row Hrow. eapply window_elem in Hrow; [|exact E].
    apply order_rows_elem, list_elem_of_filter in Hrow. tauto.
  - intros n Hn. rewrite Hn in E. by eapply window_length.
Qed.

Lemma orders_page_count {rt : StringPrototype} db collective args p log :
  run (accountOrders_resolve collective args) db = (Ok p, log) →
  p !! "count"
  = Some (VNum (Z.of_nat (length
      (filter (fun row => matches (orders_where db collective args) row = true)
              (Orders db)))))
  ∧ ∃ rows,
      rows_of p = VObj <$> rows
      ∧ (∀ row, row ∈ rows →
           row ∈ Orders db
           ∧ matches (orders_where db collective args) row = true)
      ∧ (∀ n, limit args = Some n → (length rows ≤ Z.to_nat n)%nat).
Proof.
  rewrite orders_table_run. unfold orders_table.
  destruct (is_true (sent args) || is_true (received args)); [|done].
  destruct (tier_resolves db collective args); [|done]. cbn [negb].
  destruct (orderBy args) as [o|]; [|done].
  destruct (findAndCountAll _ _) as [result|] eqn:Hfa; [|done].
  intros [= <- <-].
  destruct (findAndCountAll_count _ _ _ Hfa) as (rows & -> & Hin & Hlen).
  split.
  - apply page_lookup_result. by rewrite lookup_insert_eq.
  - exists rows. split_and!; [apply rows_of_page|exact Hin|exact Hlen].
Qed.

(** X17: [count] is not the size of the page: it is the number of orders
    that the same call without [limit] and [offset] returns; the orders of
    the page are among those, and they are at most [limit]. *)
Theorem orders_count_is_total {rt : StringPrototype} db collective args p log p' log' :
  run (accountOrders_resolve collective args) db = (Ok p, log) →
  run (accountOrders_resolve collective (set_window args None None)) db
  = (Ok p', log') →
  p !! "count" = Some (VNum (Z.of_nat (length (rows_of p'))))
  ∧ (∀ v, v ∈ rows_of p → v ∈ rows_of p')
  ∧ (∀ n, limit args = Some n → (length (rows_of p) ≤ Z.to_nat n)%nat).
Proof.
  intros H H'.
  destruct (orders_page_count _ _ _ _ _ H) as (Hc & rows & Hr & Hin & Hlen).
  destruct (orders_page_count _ _ _ _ _ H') as (Hc' & _).
  destruct (orders_page_unlimited _ _ _ _ _ H' eq_refl eq_refl)
    as (rows' & Hr' & Hc'' & Hrows').
  change (orders_where db collective (set_window args None None))
    with (orders_where db collective args) in *.
  rewrite Hr, Hr', !length_fmap. split_and!.
  - rewrite Hc. rewrite Hc' in Hc''. congruence.
  - intros v (row & -> & Hrow)%list_elem_of_fmap.
    apply list_elem_of_fmap. exists row. split; [done|].
    apply Hrows'. by apply Hin.
  - exact Hlen.
Qed.

Lemma orders_count_is_total_witness :
  second_page_run = (Ok (page_of second_page_run), second_page_run.2)
  ∧ whole_run = (Ok (page_of whole_run), whole_run.2)
  ∧ page_of second_page_run !! "count" = Some (VNum 2)
  ∧ length (rows_of (page_of second_page_run)) = 1%nat.
Proof.
  assert (second_page_run = (Ok (page_of second_page_run), second_page_run.2))
    as Hr by (vm_compute; reflexivity).
  assert (whole_run = (Ok (page_of whole_run), whole_run.2))
    as Hw by (vm_compute; reflexivity).
  split; [exact Hr|]. split; [exact Hw|].
  destruct (orders_count_is_total (rt := ascii_strings) sample_db sample_account second_page_args
              _ _ _ _ Hr Hw) as (Hc & _ & _).
  split; [|vm_compute; reflexivity].
  rewrite Hc. vm_compute. reflexivity.
Defined.
